(** * Service-readiness and viewport analytics of the GIS dashboards

    A shallow embedding of the computational core of
    [docs/js/gis_analysis.js] (module [Gis]) and [docs/js/app.js]
    (module [App]).

    Numbers.  JavaScript numbers are binary64 floats.  The properties below
    are statements about real quantities (kilometres, milliseconds), so a
    finite number is modelled as an exact rational [Q] and compared with
    [==]; the value [Infinity], which the distance code produces and tests
    for, is a constructor of its own.  The companion module [Float64] runs
    the scorer on binary64 itself, at the documented sample points. *)

From Stdlib Require Import QArith Qminmax Qabs Lqa ZArith Lia List Bool String Ascii.
From Stdlib Require Import Decimal DecimalString.
From Stdlib Require Floats.
From Stdlib Require Import Permutation Sorted.
Import ListNotations.

(** ** JavaScript numbers *)

Module JS.

(** A number as the distance code sees it: finite, or [Infinity]. *)
Inductive distance : Type :=
| Finite (q : Q)
| Infinity.

(** A number in full, for values read from attributes and parsers. *)
Inductive number : Type :=
| Num (q : Q)
| PosInfinity
| NegInfinity
| NaN.

(** [Number.isFinite]. *)
Definition isFinite (n : number) : bool :=
  match n with Num _ => true | _ => false end.

(** [Math.min] on finite numbers. *)
Definition Math_min (a b : Q) : Q := Qmin a b.

(** [d < min] where [min] may still be [Infinity]. *)
Definition lt_distance (d : Q) (m : distance) : bool :=
  match m with
  | Infinity => true
  | Finite q => if Qlt_le_dec d q then true else false
  end.

(** Equality of distances up to the value of the rational. *)
Definition distance_eq (a b : distance) : Prop :=
  match a, b with
  | Finite p, Finite q => p == q
  | Infinity, Infinity => True
  | _, _ => False
  end.

End JS.

(** ** GeoJSON values *)

Module GeoJSON.

(** A position is [[x, y]] (longitude, latitude). *)
Definition position : Type := (Q * Q)%type.

Inductive geometry : Type :=
| Point (coordinates : position)
| LineString (coordinates : list position)
| MultiLineString (coordinates : list (list position))
| Polygon (coordinates : list (list position)).

(** An attribute value: a number, a string, [null], or absent. *)
Inductive value : Type :=
| Undefined
| Null
| VNum (n : JS.number)
| VStr (s : string).

(** [properties] is an object read by attribute name. *)
Definition object : Type := list (string * value).

Fixpoint get (o : object) (k : string) : value :=
  match o with
  | [] => Undefined
  | (k', v) :: o' => if String.eqb k' k then v else get o' k
  end.

Record feature : Type := Feature {
  geometry_ : option geometry;
  properties : option object
}.

(** [{type:'FeatureCollection', features}]; [features] may be missing.
    The element type is [feature] for local data and [option feature] for
    data that can hold [null] entries. *)
Record FeatureCollection (F : Type) : Type := FC {
  features : option (list F)
}.
Arguments FC {F} _.
Arguments features {F} _.

(** [(west, south, east, north)] *)
Definition BBox : Type := (Q * Q * Q * Q)%type.

(** [f.geometry?.type === 'LineString'] *)
Definition isLineString (f : feature) : bool :=
  match geometry_ f with
  | Some (LineString _) => true
  | _ => false
  end.

Definition isMultiLineString (f : feature) : bool :=
  match geometry_ f with
  | Some (MultiLineString _) => true
  | _ => false
  end.

End GeoJSON.

(** ** gis_analysis.js *)

Module Gis.
Import JS GeoJSON.
Local Open Scope Q_scope.

(** *** readinessScore *)

(** [const toIdx = d => (d===Infinity) ? 0 : (1 - Math.min(d/0.6, 1))] *)
Definition toIdx (d : distance) : Q :=
  match d with
  | Infinity => 0
  | Finite q => 1 - Math_min (q / 0.6) 1
  end.

(** The nested conditional that picks [weights]. *)
Definition weights (wIdx sIdx : Q) : Q * Q * Q :=
  if Qeq_bool wIdx 0 && Qeq_bool sIdx 0 then (0.0, 0.0, 1.0)
  else if Qeq_bool wIdx 0 then (0.0, 0.6, 0.4)
  else if Qeq_bool sIdx 0 then (0.6, 0.0, 0.4)
  else (0.4, 0.4, 0.2).

Definition readinessScore (wDistKm sDistKm : distance) (lenKm : Q) : Q :=
  let wIdx := toIdx wDistKm in
  let sIdx := toIdx sDistKm in
  let dIdx := Math_min (lenKm / 1.5) 1 in
  let '(w0, w1, w2) := weights wIdx sIdx in
  w0 * wIdx + w1 * sIdx + w2 * dIdx.

(** *** Vocabulary of the properties *)

(** The distances the analysis can produce: finite and not negative, or
    [Infinity]. *)
Definition nonNegative (d : distance) : Prop :=
  match d with
  | Finite q => 0 <= q
  | Infinity => True
  end.

(** *** The scoring algorithm as the specification words it *)

Module Reference.

Definition idx (d : distance) : Q :=
  match d with
  | Infinity => 0
  | Finite q => 1 - Qmin (q / 0.6) 1
  end.

Definition densityIdx (lenKm : Q) : Q := Qmin (lenKm / 1.5) 1.

(** Weight triple over (waterIdx, sewerIdx, densityIdx), by case. *)
Definition weightTriple (waterIdx sewerIdx : Q) : Q * Q * Q :=
  match Qeq_dec waterIdx 0, Qeq_dec sewerIdx 0 with
  | left _, left _ => (0, 0, 1)
  | left _, right _ => (0, 0.6, 0.4)
  | right _, left _ => (0.6, 0, 0.4)
  | right _, right _ => (0.4, 0.4, 0.2)
  end.

Definition score (waterDistKm sewerDistKm : distance) (lenKm : Q) : Q :=
  let waterIdx := idx waterDistKm in
  let sewerIdx := idx sewerDistKm in
  match weightTriple waterIdx sewerIdx with
  | (a, b, c) => a * waterIdx + b * sewerIdx + c * densityIdx lenKm
  end.

End Reference.

(** *** The turf.js calls of this script

    turf is a third-party library; the script depends on it only through
    these calls (all with [{units:'kilometers'}]).  The script calls them
    unguarded, so they are taken on inputs where turf returns. *)
Class Turf : Type := {
  turf_bbox : feature -> BBox;
  turf_bboxPolygon : BBox -> feature;
  turf_buffer : feature -> Q -> feature;
  turf_booleanIntersects : feature -> feature -> bool;
  turf_centroid : feature -> feature;
  turf_pointToLineDistance : feature -> feature -> Q;
  turf_length : feature -> Q
}.

Section Geospatial.
Context {turf : Turf}.

(** [!lineFC?.features?.length] *)
Definition noFeatures (lineFC : option (FeatureCollection feature)) : bool :=
  match lineFC with
  | Some (FC (Some (_ :: _))) => false
  | _ => true
  end.

(** [lineFC.features], empty when the collection or the array is missing. *)
Definition featuresOf (lineFC : option (FeatureCollection feature))
  : list feature :=
  match lineFC with
  | Some (FC (Some fs)) => fs
  | _ => []
  end.

(** Filter lines to those within [radiusKm] of a polygon (by bbox
    buffer). *)
Definition linesNearPolygon (poly : feature)
    (lineFC : option (FeatureCollection feature)) (radiusKm : Q)
  : FeatureCollection feature :=
  if noFeatures lineFC then FC (Some [])
  else
    let bb := turf_bbox poly in
    let box := turf_bboxPolygon bb in
    let buf := turf_buffer box radiusKm in
    let near :=
      fold_left
        (fun near f =>
           if isLineString f && turf_booleanIntersects buf f
           then near ++ [f]            (* near.push(f) *)
           else near)
        (featuresOf lineFC) [] in
    FC (Some near).

(** Minimum distance (km) from point to any line in a
    FeatureCollection. *)
Definition nearestLineDistanceKm_local (point : feature)
    (lineFC : option (FeatureCollection feature)) : distance :=
  if noFeatures lineFC then Infinity
  else
    fold_left
      (fun min f =>
         let d := turf_pointToLineDistance point f in
         if lt_distance d min then Finite d else min)
      (featuresOf lineFC) Infinity.

(** The inner [add(fc)] of [sumLengthWithinBufferKm_local], threading
    [total]. *)
Definition add (buf : feature) (total : Q)
    (fc : option (FeatureCollection feature)) : Q :=
  match fc with
  | Some (FC (Some fs)) =>
      fold_left
        (fun total f =>
           if isLineString f && turf_booleanIntersects buf f
           then total + turf_length f
           else total)
        fs total
  | _ => total                          (* if (!fc?.features) return *)
  end.

(** Sum of full line lengths (km) intersecting a polygon buffer. *)
Definition sumLengthWithinBufferKm_local (poly : feature)
    (waterFC sewerFC : option (FeatureCollection feature)) (bufferKm : Q)
  : Q :=
  let buf := turf_buffer poly bufferKm in
  let total := 0 in
  let total := add buf total waterFC in
  let total := add buf total sewerFC in
  total.

(** The fields [main] attaches to an area. *)
Record analysis : Type := Analysis {
  _waterDist : distance;
  _sewerDist : distance;
  _pipeLen : Q;
  readiness : Q
}.

(** The body of the per-polygon loop of [main]. *)
Definition analyseArea (area : feature)
    (water wastewater : FeatureCollection feature) : analysis :=
  let waterNear := linesNearPolygon area (Some water) 2 in
  let sewerNear := linesNearPolygon area (Some wastewater) 2 in
  let center := turf_centroid area in
  let wDist := nearestLineDistanceKm_local center (Some waterNear) in
  let sDist := nearestLineDistanceKm_local center (Some sewerNear) in
  let pipeLenKm :=
    sumLengthWithinBufferKm_local area (Some waterNear) (Some sewerNear)
      0.25 in
  let readiness := readinessScore wDist sDist pipeLenKm in
  Analysis wDist sDist pipeLenKm readiness.

End Geospatial.

(** The polygon [linesNearPolygon] tests against: the bounding box of
    the region, buffered by the radius. *)
Definition footprint {turf : Turf} (poly : feature) (radiusKm : Q)
  : feature :=
  turf_buffer (turf_bboxPolygon (turf_bbox poly)) radiusKm.

End Gis.

(** ** A flat test double for turf

    Coordinates are kilometres on a plane.  Every shape is read through its
    bounding rectangle and a path through its axis-parallel steps, so the
    functions are exact on axis-parallel rectangles and segments, which is
    all the sample data below uses. *)

Module FlatTurf.
Import JS GeoJSON Gis.
Local Open Scope Q_scope.

Definition positions (f : feature) : list position :=
  match geometry_ f with
  | Some (Point c) => [c]
  | Some (LineString cs) => cs
  | Some (MultiLineString ps) => List.concat ps
  | Some (Polygon rings) => List.concat rings
  | None => []
  end.

Definition bbox (f : feature) : BBox :=
  match positions f with
  | [] => (0, 0, 0, 0)
  | (x, y) :: ps =>
      fold_left
        (fun (b : BBox) (c : position) =>
           let '(w, s, e, n) := b in
           (Qmin w (fst c), Qmin s (snd c), Qmax e (fst c), Qmax n (snd c)))
        ps (x, y, x, y)
  end.

Definition bboxPolygon (b : BBox) : feature :=
  let '(w, s, e, n) := b in
  Feature (Some (Polygon [[(w, s); (e, s); (e, n); (w, n); (w, s)]]))
    (Some []).

(** The straight-sided buffer of the bounding rectangle. *)
Definition buffer (f : feature) (radius : Q) : feature :=
  let '(w, s, e, n) := bbox f in
  bboxPolygon (w - radius, s - radius, e + radius, n + radius).

Definition booleanIntersects (a b : feature) : bool :=
  let '(w1, s1, e1, n1) := bbox a in
  let '(w2, s2, e2, n2) := bbox b in
  Qle_bool w1 e2 && Qle_bool w2 e1 && Qle_bool s1 n2 && Qle_bool s2 n1.

Definition centroid (f : feature) : feature :=
  let '(w, s, e, n) := bbox f in
  Feature (Some (Point ((w + e) / 2, (s + n) / 2))) (Some []).

(** How far [x] lies outside the interval [[lo, hi]]. *)
Definition outside (lo hi x : Q) : Q := Qmax 0 (Qmax (lo - x) (x - hi)).

Definition pointToLineDistance (pt line : feature) : Q :=
  match positions pt with
  | (x, y) :: _ =>
      let '(w, s, e, n) := bbox line in outside w e x + outside s n y
  | [] => 0
  end.

Fixpoint pathLength (cs : list position) : Q :=
  match cs with
  | c1 :: (c2 :: _) as rest =>
      Qabs (fst c2 - fst c1) + Qabs (snd c2 - snd c1) + pathLength rest
  | _ => 0
  end.

Definition length (f : feature) : Q :=
  match geometry_ f with
  | Some (LineString cs) => pathLength cs
  | Some (MultiLineString ps) =>
      fold_left (fun t cs => t + pathLength cs) ps 0
  | _ => 0
  end.

(** Length of the part of an axis-parallel path inside a rectangle. *)
Definition overlap (lo hi a b : Q) : Q :=
  Qmax 0 (Qmin hi (Qmax a b) - Qmax lo (Qmin a b)).

Definition within (lo hi x : Q) : bool := Qle_bool lo x && Qle_bool x hi.

Fixpoint pathLengthInside (box : BBox) (cs : list position) : Q :=
  match cs with
  | c1 :: (c2 :: _) as rest =>
      let '(w, s, e, n) := box in
      (if Qeq_bool (snd c1) (snd c2)
       then if within s n (snd c1) then overlap w e (fst c1) (fst c2) else 0
       else if Qeq_bool (fst c1) (fst c2)
       then if within w e (fst c1) then overlap s n (snd c1) (snd c2) else 0
       else 0)
      + pathLengthInside box rest
  | _ => 0
  end.

Definition lengthInside (area line : feature) : Q :=
  pathLengthInside (bbox area) (positions line).

#[export] Instance flat : Turf := {|
  turf_bbox := bbox;
  turf_bboxPolygon := bboxPolygon;
  turf_buffer := buffer;
  turf_booleanIntersects := booleanIntersects;
  turf_centroid := centroid;
  turf_pointToLineDistance := pointToLineDistance;
  turf_length := length
|}.

(** Sample data: a 1.5 km by 0.2 km area and a straight 1 km pipe that
    starts 0.2 km east of its centre and leaves its 250 m buffer after
    0.8 km. *)
Definition area : feature :=
  Feature
    (Some (Polygon [[(0, -0.1); (1.5, -0.1); (1.5, 0.1); (0, 0.1);
                     (0, -0.1)]]))
    (Some []).

Definition pipe : feature :=
  Feature (Some (LineString [(0.95, 0); (1.95, 0)])) (Some []).

(** The same run of pipe recorded as a multi-line-string of two parts. *)
Definition multiPipe : feature :=
  Feature
    (Some (MultiLineString [[(0.95, 0); (1.45, 0)]; [(1.45, 0); (1.95, 0)]]))
    (Some []).

Definition farPipe : feature :=
  Feature (Some (LineString [(4, 0); (5, 0)])) (Some []).

End FlatTurf.

(** ** app.js *)

Module App.
Import JS GeoJSON.

(** *** queryAllFeatures: query with intersects + pagination *)

Section Paging.
Context {F Bounds error : Type}.

(** What one [L.esri.query] carries when it is run. *)
Record query : Type := Query {
  url : string;
  intersects : Bounds;
  returnGeometry : bool;
  where_ : option string;
  limit : Z;
  offset : Z
}.

(** The arguments [(err, featureCollection)] of the callback of
    [q.run]. *)
Inductive reply : Type :=
| Failure (err : error)
| Success (featureCollection : option (FeatureCollection F)).

(** The promise an [async] function returns; [Pending] is a loop that
    has not finished within the rounds allowed. *)
Inductive promise : Type :=
| Pending
| Rejected (err : error)
| Resolved (fc : FeatureCollection F).

(** [map.getBounds()] and the feature service. *)
Variable getBounds : Bounds.
Variable run : query -> reply.

Definition pageSize : Z := 2000.

(** Text is held as the bytes of its UTF-8 form.  The white space and
    line terminators that [String.prototype.trim] strips: in one byte, tab
    to carriage return and the space; *)
Definition isWhiteSpace (c : ascii) : bool :=
  let n := nat_of_ascii c in
  ((9 <=? n) && (n <=? 13) || (n =? 32))%nat.

(** in two bytes, the no-break space U+00A0; *)
Definition isWhiteSpace2 (c c1 : ascii) : bool :=
  ((nat_of_ascii c =? 194) && (nat_of_ascii c1 =? 160))%nat.

(** in three bytes, U+1680, U+2000 to U+200A, U+2028, U+2029, U+202F,
    U+205F, U+3000 and the byte order mark U+FEFF. *)
Definition isWhiteSpace3 (c c1 c2 : ascii) : bool :=
  let n := nat_of_ascii c in
  let n1 := nat_of_ascii c1 in
  let n2 := nat_of_ascii c2 in
  ((n =? 225) && (n1 =? 154) && (n2 =? 128)
   || (n =? 226) && (n1 =? 128)
      && ((128 <=? n2) && (n2 <=? 138) || (n2 =? 168) || (n2 =? 169)
          || (n2 =? 175))
   || (n =? 226) && (n1 =? 129) && (n2 =? 159)
   || (n =? 227) && (n1 =? 128) && (n2 =? 128)
   || (n =? 239) && (n1 =? 187) && (n2 =? 191))%nat.

(** [where.trim()] is a non-empty string: some character of [where] is
    not white space. *)
Fixpoint nonBlank (s : string) : bool :=
  match s with
  | EmptyString => false
  | String c s1 =>
      if isWhiteSpace c then nonBlank s1
      else
        match s1 with
        | EmptyString => true
        | String c1 s2 =>
            if isWhiteSpace2 c c1 then nonBlank s2
            else
              match s2 with
              | EmptyString => true
              | String c2 s3 =>
                  if isWhiteSpace3 c c1 c2 then nonBlank s3 else true
              end
        end
  end.

(** The query of one round: [if (where && where.trim()) q.where(where)]. *)
Definition pageQuery (url_ : string) (returnGeometry_ : bool)
    (where' : option string) (offset_ : Z) : query :=
  {| url := url_;
     intersects := getBounds;
     returnGeometry := returnGeometry_;
     where_ := match where' with
               | Some w => if nonBlank w then Some w else None
               | None => None
               end;
     limit := pageSize;
     offset := offset_ |}.

(** The [while (true)] loop, at most [rounds] times round; it yields the
    queries it ran, in order, and the state of the promise. *)
Fixpoint pages (rounds : nat) (url_ : string) (returnGeometry_ : bool)
    (where' : option string) (offset_ : Z) (all : list F)
  : list query * promise :=
  match rounds with
  | O => ([], Pending)
  | S rounds' =>
      let q := pageQuery url_ returnGeometry_ where' offset_ in
      match run q with
      | Failure err => ([q], Rejected err)           (* reject(err) *)
      | Success featureCollection =>
          let fc := match featureCollection with
                    | Some fc => fc
                    | None => FC (Some [])
                    end in
          let batch := match features fc with
                       | Some b => b
                       | None => []
                       end in
          let all := all ++ batch in                 (* all.push(...batch) *)
          if (Z.of_nat (List.length batch) <? pageSize)%Z
          then ([q], Resolved (FC (Some all)))       (* break *)
          else
            let '(log, p) :=
              pages rounds' url_ returnGeometry_ where'
                (offset_ + pageSize)%Z all in
            (q :: log, p)
      end
  end.

Definition queryAllFeatures (rounds : nat) (url_ : string)
    (returnGeometry_ : bool) (where' : option string)
  : list query * promise :=
  pages rounds url_ returnGeometry_ where' 0%Z [].

(** The offset of round [k] when the loop starts at [off]. *)
Definition offsetOf (off : Z) (k : nat) : Z :=
  (off + Z.of_nat k * pageSize)%Z.

(** The features a reply delivers, if it is not a failure. *)
Definition batchOf (r : reply) : option (list F) :=
  match r with
  | Failure _ => None
  | Success None => Some []
  | Success (Some fc) =>
      Some (match features fc with Some b => b | None => [] end)
  end.

End Paging.

(** *** lengthInViewKm: polyline length inside a bbox, by diameter *)

(** A [Map] from number to number, in insertion order. *)
Definition Map : Type := list (Q * Q).

Fixpoint Map_get (m : Map) (k : Q) : option Q :=
  match m with
  | [] => None
  | (k', v) :: m' => if Qeq_bool k' k then Some v else Map_get m' k
  end.

Fixpoint Map_set (m : Map) (k v : Q) : Map :=
  match m with
  | [] => [(k, v)]
  | (k', v') :: m' =>
      if Qeq_bool k' k then (k', v) :: m' else (k', v') :: Map_set m' k v
  end.

(** What the loop writes: the local [totalKm] and the caller's map. *)
Record store : Type := Store {
  totalKm : Q;
  byDiameterMap : option Map
}.

(** A statement runs on the store and either completes with a value or
    throws; what it wrote before throwing stays written. *)
Definition M (A : Type) : Type := store -> option A * store.

Definition ret {A : Type} (a : A) : M A := fun s => (Some a, s).

Definition bind {A B : Type} (m : M A) (k : A -> M B) : M B :=
  fun s =>
    match m s with
    | (Some a, s') => k a s'
    | (None, s') => (None, s')
    end.

Notation "x <- m ;; k" := (bind m (fun x => k))
  (at level 61, m at next level, right associativity).
Notation "m ;; k" := (bind m (fun _ => k))
  (at level 61, right associativity).

(** A call that returns, or throws when there is no result. *)
Definition returned {A : Type} (r : option A) : M A := fun s => (r, s).

Definition modify (f : store -> store) : M unit := fun s => (Some tt, f s).

Definition read {A : Type} (f : store -> A) : M A := fun s => (Some (f s), s).

(** [try { body } catch { /* skip invalid */ }] *)
Definition tryCatch (body : M unit) : M unit :=
  fun s => (Some tt, snd (body s)).

(** [for (const x of l) body(x)] *)
Fixpoint forOf {A : Type} (l : list A) (body : A -> M unit) : M unit :=
  match l with
  | [] => ret tt
  | x :: l' => body x ;; forOf l' body
  end.

Section Aggregation.
(** [turf.bboxClip] and [turf.length]; [None] when the call throws. *)
Variable turf_bboxClip : feature -> BBox -> option feature.
Variable turf_length : feature -> option Q.
(** [Number(s)] of a string. *)
Variable StringToNumber : string -> number.

(** [Number(v)] *)
Definition Number_ (v : value) : number :=
  match v with
  | Undefined => NaN
  | Null => Num 0
  | VNum n => n
  | VStr s => StringToNumber s
  end.

(** The [part] that [addLen(coords)] builds for the feature [f]. *)
Definition partOf (f : feature) (coords : list position) : feature :=
  Feature (Some (LineString coords))
    (Some (match properties f with Some o => o | None => [] end)).

(** The inner [addLen(coords)] for the feature [f]. *)
Definition addLen (f : feature) (bbox : BBox) (coords : list position)
  : M unit :=
  let part := partOf f coords in
  clipped <- returned (turf_bboxClip part bbox) ;;
  km <- returned (turf_length clipped) ;;
  modify (fun s => Store (totalKm s + km) (byDiameterMap s)) ;;
  modify (fun s =>
    match byDiameterMap s with
    | Some m =>
        let d :=
          Number_
            (match properties part with
             | Some o => get o "nominaldiameter"
             | None => Undefined
             end) in
        match d with
        | Num d =>
            let old := match Map_get m d with
                       | Some v => v
                       | None => 0
                       end in
            Store (totalKm s) (Some (Map_set m d (old + km)))
        | _ => s
        end
    | None => s
    end).

(** The body of [try] for one entry of [feats]. *)
Definition visit (bbox : BBox) (f : option feature) : M unit :=
  match f with
  | None => ret tt                                   (* continue *)
  | Some f =>
      match geometry_ f with
      | None => ret tt                               (* continue *)
      | Some (LineString coordinates) => addLen f bbox coordinates
      | Some (MultiLineString coordinates) =>
          forOf coordinates (addLen f bbox)
      | Some _ => ret tt
      end
  end.

Definition lengthInViewKm
    (featureCollection : option (FeatureCollection (option feature)))
    (bbox : BBox) : M Q :=
  match featureCollection with
  | None => ret 0
  | Some fc =>
      let feats := match features fc with Some l => l | None => [] end in
      modify (fun s => Store 0 (byDiameterMap s)) ;;
      forOf feats (fun f => tryCatch (visit bbox f)) ;;
      read totalKm
  end.

(** A call with the map the caller passes ([null] by default): the
    value returned, if the call returns, and the map afterwards. *)
Definition callLengthInViewKm
    (featureCollection : option (FeatureCollection (option feature)))
    (bbox : BBox) (byDiameterMap_ : option Map) : option Q * option Map :=
  let '(r, s) := lengthInViewKm featureCollection bbox
                   (Store 0 byDiameterMap_) in
  (r, byDiameterMap s).

(** [addLen(coords)] throws: the clip throws, or measuring the clipped
    part does. *)
Definition addLenThrows (f : feature) (bbox : BBox)
    (coords : list position) : bool :=
  match turf_bboxClip (partOf f coords) bbox with
  | None => true
  | Some clipped =>
      match turf_length clipped with None => true | Some _ => false end
  end.

(** An entry the pass skips whole: [null], no geometry, a geometry that
    is neither kind of line, or a line-string on which [addLen]
    throws. *)
Definition skipped (bbox : BBox) (f : option feature) : bool :=
  match f with
  | None => true
  | Some f =>
      match geometry_ f with
      | None => true
      | Some (LineString coordinates) => addLenThrows f bbox coordinates
      | Some (MultiLineString _) => false
      | Some _ => true
      end
  end.

(** The store after one entry of [feats], whether its body completed or
    threw. *)
Definition after (bbox : BBox) (s : store) (f : option feature) : store :=
  snd (visit bbox f s).

End Aggregation.

(** *** The diameter filter and the attribute filter *)

(** What a handler does to the page, in order. *)
Inductive action : Type :=
| Alert (message : string)
| SetWhere (layer : string) (clause : string)  (* a re-query of the layer *)
| Hint (text : string).

Definition isSetWhere (a : action) : bool :=
  match a with SetWhere _ _ => true | _ => false end.

Definition layerRegistry : list string :=
  ["waterMains"; "reclaimed"; "hydrants"; "pillarHydrants"; "wwGravity";
   "wwLowPressure"; "wwPumping"; "wwVacuum"]%string.

(** The upper case of an ASCII letter; any other byte as it is. *)
Definition upper (c : ascii) : ascii :=
  let n := nat_of_ascii c in
  if ((97 <=? n) && (n <=? 122))%nat then ascii_of_nat (n - 32) else c.

(** The letters outside ASCII whose upper case is made of ASCII letters
    only, by the bytes of their UTF-8 form: in two bytes the dotless i
    U+0131, the long s U+017F and the sharp s U+00DF; *)
Definition upper2 (c c1 : ascii) : option string :=
  match nat_of_ascii c, nat_of_ascii c1 with
  | 196, 177 => Some "I"
  | 197, 191 => Some "S"
  | 195, 159 => Some "SS"
  | _, _ => None
  end%nat%string.

(** in three bytes the ligatures U+FB00 to U+FB06. *)
Definition upper3 (c c1 c2 : ascii) : option string :=
  match nat_of_ascii c, nat_of_ascii c1, nat_of_ascii c2 with
  | 239, 172, 128 => Some "FF"
  | 239, 172, 129 => Some "FI"
  | 239, 172, 130 => Some "FL"
  | 239, 172, 131 => Some "FFI"
  | 239, 172, 132 => Some "FFL"
  | 239, 172, 133 => Some "ST"
  | 239, 172, 134 => Some "ST"
  | _, _, _ => None
  end%nat%string.

(** [String.prototype.toUpperCase], as far as the comparison of its result
    with an ASCII word goes: ASCII letters and the letters of [upper2] and
    [upper3] go to their upper case; every other character outside ASCII
    has an upper case that is not all ASCII, and stays as it is. *)
Fixpoint toUpperCase (s : string) : string :=
  match s with
  | EmptyString => EmptyString
  | String c s1 =>
      match s1 with
      | EmptyString => String (upper c) EmptyString
      | String c1 s2 =>
          match upper2 c c1 with
          | Some u => u ++ toUpperCase s2
          | None =>
              match s2 with
              | EmptyString => String (upper c) (toUpperCase s1)
              | String c2 s3 =>
                  match upper3 c c1 c2 with
                  | Some u => u ++ toUpperCase s3
                  | None => String (upper c) (toUpperCase s1)
                  end
              end
          end
      end
  end%string.

(** [Canonicalize] of a regular expression with the flag [i] and without
    the flag [u]: it never takes a character outside ASCII to one inside,
    so against a literal of ASCII letters only the ASCII letters fold. *)
Fixpoint canonicalize (s : string) : string :=
  match s with
  | EmptyString => EmptyString
  | String c s' => String (upper c) (canonicalize s')
  end.

(** [/^(literal)$/i.test(s)] for a literal of ASCII letters. *)
Definition test_i (literal s : string) : bool :=
  String.eqb (canonicalize s) (canonicalize literal).

(** [s.replace(/'/g, "''")] *)
Fixpoint doubleQuotes (s : string) : string :=
  match s with
  | EmptyString => EmptyString
  | String c s' =>
      if Ascii.eqb c "'"%char
      then String "'"%char (String "'"%char (doubleQuotes s'))
      else String c (doubleQuotes s')
  end.

(** [v < 0] *)
Definition ltZero (v : number) : bool :=
  match v with
  | Num q => if Qlt_le_dec q 0 then true else false
  | NegInfinity => true
  | _ => false
  end.

Section Filters.
Local Open Scope string_scope.

(** [Number(s)], the text of a number in a template, [Date.parse]. *)
Variable StringToNumber : string -> number.
Variable NumberToString : number -> string.
Variable Date_parse : string -> number.

(** [diamMin] is the text of the input box. *)
Definition applyDiameterFilter (diamMin : string) : list action :=
  let v := StringToNumber diamMin in
  if negb (isFinite v) || ltZero v
  then [Alert "Enter a non-negative diameter in mm (e.g., 150)."]
  else
    let where' := "nominaldiameter >= " ++ NumberToString v in
    [SetWhere "waterMains" where'].

Definition falsy (s : option string) : bool :=
  match s with
  | None => true
  | Some EmptyString => true
  | Some _ => false
  end.

(** Build WHERE with proper quoting for strings/dates. *)
Definition buildWhere (field op value : option string) (ftype : string)
  : string :=
  match field, op with
  | Some field', Some op' =>
      if falsy field || falsy op then "1=1"
      else
        match value with
        | None => field' ++ " " ++ op' ++ " NULL"
        | Some EmptyString => field' ++ " " ++ op' ++ " NULL"
        | Some value' =>
            let isString := test_i "esriFieldTypeString" ftype in
            let isDate := test_i "esriFieldTypeDate" ftype in
            let isLike := String.eqb (toUpperCase op') "LIKE" in
            if isString then
              let v := doubleQuotes value' in
              field' ++ " " ++ op' ++ " '"
                ++ (if isLike then "%" ++ v ++ "%" else v) ++ "'"
            else if isDate then
              let t := Date_parse value' in
              if isFinite t
              then field' ++ " " ++ op' ++ " " ++ NumberToString t
              else field' ++ " " ++ op' ++ " NULL"
            else field' ++ " " ++ op' ++ " " ++ value'
        end
  | _, _ => "1=1"
  end.

(** The [apply()] of the filter control: the selected layer key, the
    selected field option as (name, data-type) if any, the operator and
    the text of the value box. *)
Definition apply (fLayer : string) (selected : option (string * string))
    (fOp fVal : string) : list action :=
  let key := fLayer in
  if negb (existsb (String.eqb key) layerRegistry)
  then [Alert "Layer not found."]
  else
    let fName := option_map fst selected in
    let fType := match selected with
                 | Some (_, t) => t
                 | None => EmptyString
                 end in
    let clause := buildWhere fName (Some fOp) (Some fVal) fType in
    [SetWhere key clause; Hint ("Applied: " ++ clause)].

End Filters.

(** *** scheduleAnalytics: debounce *)

Local Open Scope Z_scope.

(** The page as the scheduler sees it.  Times are in milliseconds.  A
    timer is (id, time it is due); its callback is always
    [computeAnalytics], whose start times [runs] records. *)
Record page : Type := Page {
  now : Z;
  nextTimer : Z;
  timers : list (Z * Z);
  analyticsTimer : option Z;
  runs : list Z
}.

(** The page when the script has loaded: [let analyticsTimer = null]. *)
Definition initialPage : page := Page 0 1 [] None [].

(** [setTimeout(computeAnalytics, delay)]: a fresh id, due [delay] ms
    from now. *)
Definition setTimeout (delay : Z) (s : page) : Z * page :=
  (nextTimer s,
   Page (now s) (nextTimer s + 1)
     (timers s ++ [(nextTimer s, now s + delay)])
     (analyticsTimer s) (runs s)).

(** [clearTimeout(id)]: the timer, if it is still waiting, is dropped. *)
Definition clearTimeout (id : Z) (s : page) : page :=
  Page (now s) (nextTimer s)
    (filter (fun t => negb (fst t =? id)) (timers s))
    (analyticsTimer s) (runs s).

(** [if (analyticsTimer) clearTimeout(analyticsTimer);
    analyticsTimer = setTimeout(computeAnalytics, 350);] *)
Definition scheduleAnalytics (s : page) : page :=
  let s :=
    match analyticsTimer s with
    | Some id => if id =? 0 then s else clearTimeout id s
    | None => s
    end in
  let '(id, s) := setTimeout 350 s in
  Page (now s) (nextTimer s) (timers s) (Some id) (runs s).

(** Timers in the order they fire: by due time, then as they were set. *)
Fixpoint insertByDue (x : Z * Z) (l : list (Z * Z)) : list (Z * Z) :=
  match l with
  | [] => [x]
  | y :: l' => if snd x <=? snd y then x :: l else y :: insertByDue x l'
  end.

(** The event loop up to time [t]: the timers due by then fire, earliest
    first, each at the time it is due. *)
Definition elapse (t : Z) (s : page) : page :=
  let due := filter (fun x => snd x <=? t) (timers s) in
  let later := filter (fun x => negb (snd x <=? t)) (timers s) in
  Page (Z.max (now s) t) (nextTimer s) later (analyticsTimer s)
    (runs s ++ map snd (fold_right insertByDue [] due)).

(** A trigger event ([moveend], a layer toggled, a filter applied) at time
    [t] calls [scheduleAnalytics]. *)
Definition trigger (s : page) (t : Z) : page :=
  scheduleAnalytics (elapse t s).

(** Trigger events at the given times, in order. *)
Definition play (events : list Z) (s : page) : page :=
  fold_left trigger events s.

(** Trigger times after [t], each less than the quiet interval after the
    one before. *)
Fixpoint burst (t : Z) (events : list Z) : Prop :=
  match events with
  | [] => True
  | t' :: events' => t <= t' < t + 350 /\ burst t' events'
  end.

(** No scheduled run is outstanding. *)
Definition idle (s : page) : Prop := timers s = [] /\ 0 < nextTimer s.

(** One scheduled run is outstanding: the one set at time [t], held in
    [analyticsTimer]; [r] are the runs so far. *)
Definition armed (t : Z) (r : list Z) (s : page) : Prop :=
  exists id : Z,
    timers s = [(id, t + 350)] /\ analyticsTimer s = Some id /\ id <> 0 /\
    0 < nextTimer s /\ runs s = r /\ now s = t.

End App.

(** ** Sample collaborators and data for app.js *)

Module Samples.
Import JS GeoJSON App.
Local Open Scope string_scope.

(** Decimal integers are numbers, the empty text is 0, any other text is
    not a number. *)
Definition stringToNumber (s : string) : number :=
  match NilEmpty.int_of_string s with
  | Some i => Num (inject_Z (Z.of_int i))
  | None => NaN
  end.

Definition numberToString (n : number) : string :=
  match n with
  | Num q => NilZero.string_of_int (Z.to_int (Qnum q / Zpos (Qden q)))
  | PosInfinity => "Infinity"
  | NegInfinity => "-Infinity"
  | NaN => "NaN"
  end.

(** One date is known; any other text does not parse. *)
Definition dateParse (s : string) : number :=
  if String.eqb s "2024-01-31" then Num (inject_Z 1706659200000) else NaN.

(** A view that holds all the sample data: clipping keeps a part as it
    is, and throws on a part with fewer than two positions. *)
Definition bboxClip (part : feature) (bbox : BBox) : option feature :=
  match geometry_ part with
  | Some (LineString (_ :: _ :: _)) => Some part
  | _ => None
  end.

Definition length (f : feature) : option Q := Some (FlatTurf.length f).

Definition view : BBox := (-10, -10, 10, 10)%Q.

Definition main150 : feature :=
  Feature (Some (LineString [(0, 0); (1, 0)]%Q))
    (Some [("nominaldiameter", VNum (Num 150))]).

Definition broken : feature :=
  Feature (Some (LineString [(0, 0)]%Q))
    (Some [("nominaldiameter", VNum (Num 150))]).

Definition hydrant : feature :=
  Feature (Some (Point (0, 0)%Q)) (Some []).

(** Two sound parts before a broken one, and a sound part after it. *)
Definition multi100 : feature :=
  Feature
    (Some (MultiLineString
             [[(0, 0); (2, 0)]; [(2, 0); (2, 1)]; [(2, 1)];
              [(2, 1); (5, 1)]]%Q))
    (Some [("nominaldiameter", VStr "100")]).

Definition multi100_sound : feature :=
  Feature
    (Some (MultiLineString [[(0, 0); (2, 0)]; [(2, 0); (2, 1)]]%Q))
    (Some [("nominaldiameter", VStr "100")]).

(** A feature service with 2002 features behind one query: a full page,
    then a page of two; any other offset is an error. *)
Definition service (q : @query unit) : @reply feature string :=
  if (offset q =? 0)%Z
  then Success (Some (FC (Some (repeat main150 2000))))
  else if (offset q =? 2000)%Z
  then Success (Some (FC (Some [main150; hydrant])))
  else Failure "offset out of range".

(** The same service when the second page cannot be fetched. *)
Definition flaky (q : @query unit) : @reply feature string :=
  if (offset q =? 0)%Z
  then Success (Some (FC (Some (repeat main150 2000))))
  else Failure "network error".

End Samples.

(** ** readinessScore on binary64 *)

Module Float64.
Import Floats.
Local Open Scope float_scope.
Local Open Scope bool_scope.
Local Set Warnings "-inexact-float".

(** [Math.min] of two numbers: [NaN] when either is. *)
Definition Math_min (a b : float) : float :=
  if is_nan a || is_nan b then nan else if a <? b then a else b.

Definition toIdx (d : float) : float :=
  if d =? infinity then 0 else 1 - Math_min (d / 0.6) 1.

Definition readinessScore (wDistKm sDistKm lenKm : float) : float :=
  let wIdx := toIdx wDistKm in
  let sIdx := toIdx sDistKm in
  let dIdx := Math_min (lenKm / 1.5) 1 in
  let '(w0, w1, w2) :=
    if (wIdx =? 0) && (sIdx =? 0) then (0.0, 0.0, 1.0)
    else if wIdx =? 0 then (0.0, 0.6, 0.4)
    else if sIdx =? 0 then (0.6, 0.0, 0.4)
    else (0.4, 0.4, 0.2) in
  w0 * wIdx + w1 * sIdx + w2 * dIdx.

(** [lo <= x <= hi] *)
Definition between (lo hi x : float) : bool := (lo <=? x) && (x <=? hi).

End Float64.

(** ** gis_analysis.js: names and colours *)

Module GisDisplay.
Import JS GeoJSON.

(** [r>=0.7 ? green : r>=0.4 ? yellow : red] *)
Definition colorByReadiness (r : Q) : string :=
  if Qle_bool 0.7 r then "#22c55e"
  else if Qle_bool 0.4 r then "#eab308"
  else "#ef4444".

(** No line of the network within 600 m: none at all, or the nearest at
    0.6 km or more. *)
Definition outOfRange (d : distance) : Prop :=
  match d with
  | Infinity => True
  | Finite q => (0.6 <= q)%Q
  end.

(** The order of distances, [Infinity] being the farthest. *)
Definition distance_le (a b : distance) : Prop :=
  match a, b with
  | _, Infinity => True
  | Finite p, Finite q => (p <= q)%Q
  | Infinity, Finite _ => False
  end.

(** Whether a value counts as true in a condition. *)
Definition truthy (v : value) : bool :=
  match v with
  | Undefined => false
  | Null => false
  | VNum (Num q) => negb (Qeq_bool q 0)
  | VNum NaN => false
  | VNum _ => true
  | VStr EmptyString => false
  | VStr _ => true
  end.

Definition keys : list string :=
  ["name"; "NAME"; "Label"; "LABEL"; "AREA_NAME"; "REGION"; "SA2_NAME";
   "SUBURB"; "LGA_NAME"; "TITLE"]%string.

Section Names.
(** The text of a number, as [String(n)] and a template give it. *)
Variable NumberToString : number -> string.

(** [String(v)] of a value that counts as true. *)
Definition String_ (v : value) : string :=
  match v with
  | VStr s => s
  | VNum n => NumberToString n
  | Null => "null"
  | Undefined => "undefined"
  end.

(** The [for (const k of keys)] loop of [displayName] over the keys still
    to try. *)
Fixpoint firstNamed (props : option object) (ks : list string)
  : option string :=
  match ks with
  | [] => None
  | k :: ks' =>
      match props with
      | Some o =>
          if truthy (get o k) then Some (String_ (get o k))
          else firstNamed props ks'
      | None => firstNamed props ks'
      end
  end.

Definition displayName (props : option object) (idx : Z) : string :=
  match firstNamed props keys with
  | Some name => name
  | None => ("Area " ++ NumberToString (Num (inject_Z (idx + 1))))%string
  end.

End Names.

End GisDisplay.

(** ** app.js: what the properties of the analytics speak of *)

Module AppMore.
Import JS GeoJSON App.

Section Contribution.
Variable turf_bboxClip : feature -> BBox -> option feature.
Variable turf_length : feature -> option Q.
Variable StringToNumber : string -> number.

(** The kilometres [addLen(coords)] measures for [f], if it does not
    throw. *)
Definition partKm (f : feature) (bbox : BBox) (coords : list position)
  : option Q :=
  match turf_bboxClip (partOf f coords) bbox with
  | Some clipped => turf_length clipped
  | None => None
  end.

(** The kilometres of the parts of a multi-line-string up to the first on
    which [addLen] throws. *)
Fixpoint partsKm (f : feature) (bbox : BBox) (parts : list (list position))
  : Q :=
  match parts with
  | [] => 0
  | coords :: rest =>
      match partKm f bbox coords with
      | Some km => km + partsKm f bbox rest
      | None => 0
      end
  end.

(** The kilometres one entry of [feats] counts for. *)
Definition gain (bbox : BBox) (f : option feature) : Q :=
  match f with
  | None => 0
  | Some f =>
      match geometry_ f with
      | Some (LineString coordinates) =>
          match partKm f bbox coordinates with
          | Some km => km
          | None => 0
          end
      | Some (MultiLineString coordinates) => partsKm f bbox coordinates
      | _ => 0
      end
  end.

(** [Number(f.properties?.nominaldiameter)] *)
Definition diameterOf (f : feature) : number :=
  Number_ StringToNumber
    (match properties f with
     | Some o => get o "nominaldiameter"
     | None => Undefined
     end).

(** The kilometres one entry counts for in the diameter map: all it counts
    for when its diameter is a finite number, none otherwise. *)
Definition binnedGain (bbox : BBox) (f : option feature) : Q :=
  match f with
  | Some f' => if isFinite (diameterOf f') then gain bbox f else 0
  | None => 0
  end.

(** What [km] kilometres of the feature [f] count for in the bin of the
    diameter [d]: all of them when [d] is the diameter of [f], none
    otherwise. *)
Definition binKm (f : feature) (d km : Q) : Q :=
  match diameterOf f with
  | Num d' => if Qeq_bool d' d then km else 0
  | _ => 0
  end.

(** The kilometres one entry of [feats] counts for in the bin of [d]. *)
Definition binGain (bbox : BBox) (d : Q) (f : option feature) : Q :=
  match f with
  | Some f' => binKm f' d (gain bbox f)
  | None => 0
  end.

Definition sumOf (g : option feature -> Q) (feats : list (option feature))
  : Q :=
  fold_right (fun f acc => g f + acc)%Q 0 feats.

End Contribution.

(** The sum of the values of a map. *)
Definition mapSum (m : Map) : Q :=
  fold_right (fun kv acc => snd kv + acc)%Q 0 m.

(** [byDiameterMap.get(d) || 0] *)
Definition binOf (m : Map) (d : Q) : Q :=
  match Map_get m d with
  | Some v => v
  | None => 0
  end.

(** Sample data: a clip that cuts a path at the edges of the box, segment
    by segment.  The part of the range [t] of a segment's parameter on
    which [p * t <= q]: *)
Definition clipEdge (p q : Q) (t : option (Q * Q)) : option (Q * Q) :=
  match t with
  | None => None
  | Some (t0, t1) =>
      if Qeq_bool p 0
      then if Qle_bool 0 q then t else None
      else if Qle_bool p 0
      then if Qle_bool (q / p) t1 then Some (Qmax t0 (q / p), t1) else None
      else if Qle_bool t0 (q / p) then Some (t0, Qmin t1 (q / p)) else None
  end%Q.

(** the piece of the segment from [c1] to [c2] inside the box, if any; *)
Definition clipSegment (box : BBox) (c1 c2 : position)
  : option (list position) :=
  let '(w, s, e, n) := box in
  let '(x1, y1) := c1 in
  let '(x2, y2) := c2 in
  let dx := (x2 - x1)%Q in
  let dy := (y2 - y1)%Q in
  match clipEdge (- dx) (x1 - w)
          (clipEdge dx (e - x1)
             (clipEdge (- dy) (y1 - s)
                (clipEdge dy (n - y1) (Some (0, 1)))))%Q with
  | Some (t0, t1) =>
      Some [(x1 + t0 * dx, y1 + t0 * dy); (x1 + t1 * dx, y1 + t1 * dy)]%Q
  | None => None
  end.

Fixpoint clipPath (box : BBox) (cs : list position) : list (list position) :=
  match cs with
  | c1 :: (c2 :: _) as rest =>
      match clipSegment box c1 c2 with
      | Some piece => piece :: clipPath box rest
      | None => clipPath box rest
      end
  | _ => []
  end.

(** the pieces of a line-string, and a throw on a part with fewer than two
    positions. *)
Definition clipToBox (part : feature) (bbox : BBox) : option feature :=
  match geometry_ part with
  | Some (LineString ((_ :: _ :: _) as cs)) =>
      Some (Feature (Some (MultiLineString (clipPath bbox cs)))
              (properties part))
  | _ => None
  end.

(** A main of diameter 100 in four parts: two that leave the sample view
    [(-10, -10, 10, 10)] after 2 km each, a broken one, and one of 5 km
    inside the view. *)
Definition crossing : feature :=
  Feature
    (Some (MultiLineString
             [[(8, 0); (12, 0)]; [(0, 8); (0, 15)]; [(3, 3)];
              [(0, 0); (5, 0)]]%Q))
    (Some [("nominaldiameter"%string, VStr "100"%string)]).

(** A [where] of white space only: a tab, U+00A0, U+2028, U+FEFF, U+3000
    and a space. *)
Definition blankWhere : string :=
  String "009"
    (String "194" (String "160"
       (String "226" (String "128" (String "168"
          (String "239" (String "187" (String "191"
             (String "227" (String "128" (String "128"
                (String " " EmptyString)))))))))))).

(** The operator [like] written with the dotless i U+0131. *)
Definition dotlessLike : string :=
  String "l" (String "196" (String "177" (String "k" (String "e" EmptyString)))).

(** A feature service that has a full page at every offset. *)
Definition endless (q : @query unit) : @reply feature string :=
  Success (Some (FC (Some (repeat Samples.main150 2000)))).

(** *** The table of lengths by diameter *)

(** Where [sort((a,b) => b[1]-a[1])] puts an entry among entries already
    in order: before the first that is not longer, so that equal entries
    keep the order they came in. *)
Fixpoint insertDesc (x : Q * Q) (l : list (Q * Q)) : list (Q * Q) :=
  match l with
  | [] => [x]
  | y :: l' => if Qle_bool (snd y) (snd x) then x :: l else y :: insertDesc x l'
  end.

Definition sortDesc (l : list (Q * Q)) : list (Q * Q) :=
  fold_right insertDesc [] l.

(** [Array.from(byDia.entries()).sort((a,b) => b[1]-a[1]).slice(0, 12)] *)
Definition diameterRows (byDia : Map) : list (Q * Q) :=
  firstn 12 (sortDesc byDia).

(** *** Reading a quoted SQL text back *)

(** The text of a string literal from just behind its opening quote up to
    its closing quote, two quotes standing for one, and what follows the
    literal; [None] when the literal is not closed. *)
Fixpoint readLiteral (s : string) : option (string * string) :=
  match s with
  | EmptyString => None
  | String c s' =>
      if Ascii.eqb c "'"%char then
        match s' with
        | String c' s'' =>
            if Ascii.eqb c' "'"%char then
              match readLiteral s'' with
              | Some (v, rest) => Some (String "'"%char v, rest)
              | None => None
              end
            else Some (EmptyString, s')
        | EmptyString => Some (EmptyString, EmptyString)
        end
      else
        match readLiteral s' with
        | Some (v, rest) => Some (String c v, rest)
        | None => None
        end
  end.

Fixpoint hasSpace (s : string) : bool :=
  match s with
  | EmptyString => false
  | String c s' => Ascii.eqb c " "%char || hasSpace s'
  end.

(** *** More of the debounce *)

Local Open Scope Z_scope.

(** Trigger times in the order of the clock. *)
Fixpoint ascending (t : Z) (events : list Z) : Prop :=
  match events with
  | [] => True
  | t' :: events' => t <= t' /\ ascending t' events'
  end.

(** The times of the runs that triggers at [t] and then at [events] lead
    to: 350 ms after each trigger that no other follows within 350 ms. *)
Fixpoint runsAfter (t : Z) (events : list Z) : list Z :=
  match events with
  | [] => [t + 350]
  | t' :: events' =>
      if t + 350 <=? t' then (t + 350) :: runsAfter t' events'
      else runsAfter t' events'
  end.

(** A click on the refresh button at time [t]: [computeAnalytics] is the
    handler itself, so it runs at once. *)
Definition refresh (s : page) (t : Z) : page :=
  let s := elapse t s in
  Page (now s) (nextTimer s) (timers s) (analyticsTimer s) (runs s ++ [t]).

(** *** loadFieldsFor and the filter from the URL *)

Local Open Scope string_scope.

Definition KEY_TO_ID : list (string * Z) :=
  [("waterMains", 84); ("reclaimed", 83); ("hydrants", 334);
   ("pillarHydrants", 335); ("wwGravity", 85); ("wwLowPressure", 86);
   ("wwPumping", 87); ("wwVacuum", 88)].

(** A [Map] or an object with text keys. *)
Fixpoint lookup {A : Type} (k : string) (l : list (string * A)) : option A :=
  match l with
  | [] => None
  | (k', v) :: l' => if String.eqb k' k then Some v else lookup k l'
  end.

Fixpoint store_ {A : Type} (k : string) (v : A) (l : list (string * A))
  : list (string * A) :=
  match l with
  | [] => [(k, v)]
  | (k', v') :: l' =>
      if String.eqb k' k then (k', v) :: l' else (k', v') :: store_ k v l'
  end.

(** [KEY_TO_ID] is an object literal: besides its own eight keys it
    answers to the names every object inherits from [Object.prototype]. *)
Definition inheritedNames : list string :=
  ["constructor"; "hasOwnProperty"; "isPrototypeOf"; "propertyIsEnumerable";
   "toLocaleString"; "toString"; "valueOf"; "__proto__";
   "__defineGetter__"; "__defineSetter__"; "__lookupGetter__";
   "__lookupSetter__"].

(** What [KEY_TO_ID[key]] is when it is not [undefined]: the id of a layer,
    or the inherited member of that name. *)
Inductive member : Type :=
| LayerId (lyrId : Z)
| Inherited (name : string).

(** [KEY_TO_ID[key]], [None] for [undefined]. *)
Definition KEY_TO_ID_at (key : string) : option member :=
  match lookup key KEY_TO_ID with
  | Some lyrId => Some (LayerId lyrId)
  | None =>
      if existsb (String.eqb key) inheritedNames
      then Some (Inherited key)
      else None
  end.

(** A field of a layer: (name, type). *)
Definition field : Type := (string * string)%type.

(** [fieldCache], and what the descriptions fetched so far were asked
    for, in order. *)
Record fieldStore : Type := FieldStore {
  fieldCache : list (string * list field);
  fetched : list member
}.

(** [!['esriFieldTypeGeometry','esriFieldTypeOID'].includes(f.type)] *)
Definition listed (f : field) : bool :=
  negb (existsb (String.eqb (snd f))
          ["esriFieldTypeGeometry"; "esriFieldTypeOID"]).

Section Fields.
(** [meta.fields] of what the service answers for
    [`${SERVICE_URL}/${lyrId}?f=json`], [None] when the answer has none;
    the request is taken to be answered. *)
Variable getJSON : member -> option (list field).

Definition loadFieldsFor (key : string) (s : fieldStore)
  : list field * fieldStore :=
  match lookup key (fieldCache s) with
  | Some fields => (fields, s)                  (* fieldCache.has(key) *)
  | None =>
      match KEY_TO_ID_at key with
      | None => ([], s)                         (* lyrId == null *)
      | Some lyrId =>
          let fields :=
            filter listed
              (match getJSON lyrId with Some fs => fs | None => [] end) in
          (fields,
           FieldStore (store_ key fields (fieldCache s))
             (fetched s ++ [lyrId]))
      end
  end.

Variable NumberToString : number -> string.
Variable Date_parse : string -> number.

(** [p.get(name) || null] *)
Definition orNull (v : option string) : option string :=
  match v with
  | Some EmptyString => None
  | _ => v
  end.

(** [tryApplyFromURL] for the search parameters [p]: what it does to the
    page, [None] when it throws, and the field store afterwards. *)
Definition tryApplyFromURL (p : string -> option string) (s : fieldStore)
  : option (list action) * fieldStore :=
  let layer := orNull (p "layer") in
  let where' := orNull (p "where") in
  let field_ := orNull (p "field") in
  let op := orNull (p "op") in
  let value := orNull (p "value") in
  match layer with
  | None => (Some [], s)                        (* if (!layer) return *)
  | Some layer =>
      let '(fields, s) := loadFieldsFor layer s in
      let registered := existsb (String.eqb layer) layerRegistry in
      match where' with
      | Some where' =>
          if registered
          then (Some [SetWhere layer where';
                      Hint ("Applied (URL): " ++ where')], s)
          else (None, s)
      | None =>
          match field_, op, value with
          | Some field_, Some op, Some value =>
              let fType :=
                match find (fun x => String.eqb (fst x) field_) fields with
                | Some x => snd x
                | None => EmptyString
                end in
              let clause :=
                buildWhere NumberToString Date_parse (Some field_) (Some op)
                  (Some value) fType in
              if registered
              then (Some [SetWhere layer clause;
                          Hint ("Applied (URL): " ++ clause)], s)
              else (None, s)
          | _, _, _ => (Some [], s)
          end
      end
  end.

End Fields.

(** The description of the water mains layer as the sample service gives
    it; no other layer has fields. *)
Definition sampleMeta (lyrId : member) : option (list field) :=
  match lyrId with
  | LayerId 84 =>
      Some [("objectid", "esriFieldTypeOID");
            ("nominaldiameter", "esriFieldTypeDouble");
            ("installdate", "esriFieldTypeDate");
            ("shape", "esriFieldTypeGeometry")]
  | _ => None
  end.

(** The search parameters of
    [?layer=waterMains&where=nominaldiameter>=300&field=installdate&op==&value=x]. *)
Definition sampleSearch (name : string) : option string :=
  lookup name
    [("layer", "waterMains"); ("where", "nominaldiameter>=300");
     ("field", "installdate"); ("op", "="); ("value", "x")].

End AppMore.

(** * Properties of gis_analysis.js *)

Module GisFacts.
Import JS GeoJSON Gis.
Local Open Scope Q_scope.
#[local] Existing Instance FlatTurf.flat.

Lemma Qeq_bool_dec_agree (x : Q) :
  Qeq_bool x 0 = if Qeq_dec x 0 then true else false.
Proof.
  destruct (Qeq_dec x 0) as [e | n].
  - apply Qeq_bool_iff; exact e.
  - apply not_true_is_false; intro h; apply n, Qeq_bool_iff; exact h.
Qed.

Lemma readinessScore_reference (w s : distance) (len : Q) :
  readinessScore w s len == Reference.score w s len.
Proof.
  unfold readinessScore, Reference.score, Reference.densityIdx, Math_min.
  change (Reference.idx w) with (toIdx w).
  change (Reference.idx s) with (toIdx s).
  cbv zeta. unfold weights, Reference.weightTriple.
  rewrite !Qeq_bool_dec_agree.
  destruct (Qeq_dec (toIdx w) 0), (Qeq_dec (toIdx s) 0);
    simpl andb; cbv iota; ring.
Qed.

(** The capped quotient [min(x/c, 1)] for a positive constant. *)
Lemma capped_bounds (x c : Q) :
  0 < c -> 0 <= x -> 0 <= Qmin (x / c) 1 <= 1.
Proof.
  intros hc hx. split.
  - apply Q.min_glb; [ | lra ].
    apply Qle_shift_div_l; [ exact hc | lra ].
  - apply Q.le_min_r.
Qed.

Lemma capped_full (x c : Q) : 0 < c -> c <= x -> Qmin (x / c) 1 == 1.
Proof.
  intros hc hx. apply Q.min_r.
  apply Qle_shift_div_l; [ exact hc | lra ].
Qed.

Lemma toIdx_bounds (d : distance) : nonNegative d -> 0 <= toIdx d <= 1.
Proof.
  destruct d as [q | ]; simpl; intro h.
  - unfold Math_min.
    assert (hb : 0 <= Qmin (q / 0.6) 1 <= 1)
      by (apply capped_bounds; [ reflexivity | exact h ]).
    lra.
  - lra.
Qed.

Lemma weights_cases (wi si : Q) :
  (wi == 0 /\ si == 0 /\ weights wi si = (0.0, 0.0, 1.0)) \/
  (wi == 0 /\ ~ si == 0 /\ weights wi si = (0.0, 0.6, 0.4)) \/
  (~ wi == 0 /\ si == 0 /\ weights wi si = (0.6, 0.0, 0.4)) \/
  (~ wi == 0 /\ ~ si == 0 /\ weights wi si = (0.4, 0.4, 0.2)).
Proof.
  unfold weights. rewrite !Qeq_bool_dec_agree.
  destruct (Qeq_dec wi 0), (Qeq_dec si 0); simpl; tauto.
Qed.

(** C1.  [readinessScore] computes the reference algorithm: indices
    [idx(d) = 0] at infinity and [1 - min(d/0.6, 1)] otherwise, density
    index [min(len/1.5, 1)], the weight triple chosen by which proximity
    indices are zero, and the weighted sum.  In particular the score of
    (infinity, infinity, 0) is 0 and the score of (0, 0, l) is 1 for every
    [l >= 1.5]. *)
Theorem readinessScore_is_reference :
  (forall (w s : distance) (len : Q),
      readinessScore w s len == Reference.score w s len) /\
  readinessScore Infinity Infinity 0 == 0 /\
  (forall l : Q, 1.5 <= l -> readinessScore (Finite 0) (Finite 0) l == 1).
Proof.
  split; [ exact readinessScore_reference | split ].
  - reflexivity.
  - intros l hl. unfold readinessScore. simpl toIdx. unfold Math_min.
    assert (h : Qmin (l / 1.5) 1 == 1)
      by (apply capped_full; [ reflexivity | exact hl ]).
    change (weights (1 - Qmin (0 / 0.6) 1) (1 - Qmin (0 / 0.6) 1))
      with (0.4, 0.4, 0.2).
    cbv beta iota. rewrite h. reflexivity.
Qed.

Lemma readinessScore_is_reference_witness :
  readinessScore (Finite 0) (Finite 0) 2 == 1.
Proof.
  apply (proj2 (proj2 readinessScore_is_reference) 2).
  unfold Qle; simpl; lia.
Defined.

(** C2.  For distances that are finite and not negative, or infinite, and
    a length that is not negative, the score lies in [[0, 1]]. *)
Theorem readinessScore_in_unit_interval (w s : distance) (len : Q) :
  nonNegative w -> nonNegative s -> 0 <= len ->
  0 <= readinessScore w s len <= 1.
Proof.
  intros hw hs hl. unfold readinessScore, Math_min.
  pose proof (toIdx_bounds w hw) as bw.
  pose proof (toIdx_bounds s hs) as bs.
  assert (bd : 0 <= Qmin (len / 1.5) 1 <= 1)
    by (apply capped_bounds; [ reflexivity | exact hl ]).
  destruct (weights_cases (toIdx w) (toIdx s))
    as [(zw & zs & e) | [(zw & zs & e) | [(zw & zs & e) | (zw & zs & e)]]];
    rewrite e; cbv beta iota;
    set (a := toIdx w) in *; set (b := toIdx s) in *;
    set (d := Qmin (len / 1.5) 1) in *; lra.
Qed.

Lemma readinessScore_in_unit_interval_witness :
  0 <= readinessScore (Finite 0.3) Infinity 0.5 <= 1.
Proof.
  apply readinessScore_in_unit_interval; simpl; unfold Qle; simpl; lia.
Defined.

(** Water 300 m away, no sewer, no pipe: weights (0.6, 0, 0.4) and half
    the water credit. *)
Example readinessScore_water_only :
  weights (toIdx (Finite 0.3)) (toIdx Infinity) = (0.6, 0.0, 0.4) /\
  readinessScore (Finite 0.3) Infinity 0 == 0.3.
Proof. split; reflexivity. Qed.

(** Both networks beyond 600 m: the density index alone. *)
Example readinessScore_density_only :
  readinessScore (Finite 0.6) (Finite 2) 0.75 == 0.5.
Proof. reflexivity. Qed.

(** The score does not depend on how a rational is written. *)
Lemma toIdx_compat (a b : distance) :
  distance_eq a b -> toIdx a == toIdx b.
Proof.
  destruct a as [p | ], b as [q | ]; simpl; try tauto; intro h.
  - unfold Math_min. rewrite h. reflexivity.
  - reflexivity.
Qed.

Lemma readinessScore_compat (w w' s s' : distance) (l l' : Q) :
  distance_eq w w' -> distance_eq s s' -> l == l' ->
  readinessScore w s l == readinessScore w' s' l'.
Proof.
  intros hw hs hl.
  apply toIdx_compat in hw. apply toIdx_compat in hs.
  unfold readinessScore, Math_min.
  assert (hd : Qmin (l / 1.5) 1 == Qmin (l' / 1.5) 1)
    by (rewrite hl; reflexivity).
  destruct (weights_cases (toIdx w) (toIdx s))
    as [(zw & zs & e) | [(zw & zs & e) | [(zw & zs & e) | (zw & zs & e)]]];
  destruct (weights_cases (toIdx w') (toIdx s'))
    as [(zw' & zs' & e') | [(zw' & zs' & e') | [(zw' & zs' & e')
                                              | (zw' & zs' & e')]]];
    rewrite e, e'; cbv beta iota;
    try (exfalso; (apply zw; lra) || (apply zs; lra)
                  || (apply zw'; lra) || (apply zs'; lra));
    set (a := toIdx w) in *; set (a' := toIdx w') in *;
    set (b := toIdx s) in *; set (b' := toIdx s') in *;
    set (d := Qmin (l / 1.5) 1) in *; set (d' := Qmin (l' / 1.5) 1) in *;
    lra.
Qed.

Section Filter.
Context {turf : Turf}.

(** A loop that pushes the elements passing a test builds the filtered
    list behind what was there. *)
Lemma push_loop {A : Type} (keep : A -> bool) (l acc : list A) :
  fold_left (fun near f => if keep f then near ++ [f] else near) l acc
  = acc ++ filter keep l.
Proof.
  revert acc. induction l as [ | x l ih]; intro acc; simpl.
  - now rewrite app_nil_r.
  - rewrite ih. destruct (keep x); [ | reflexivity ].
    now rewrite <- app_assoc.
Qed.

Lemma noFeatures_featuresOf (lineFC : option (FeatureCollection feature)) :
  noFeatures lineFC = true -> featuresOf lineFC = [].
Proof.
  destruct lineFC as [[[[ | f fs] | ]] | ]; simpl; congruence.
Qed.

Lemma linesNearPolygon_filter (poly : feature)
    (lineFC : option (FeatureCollection feature)) (radiusKm : Q) :
  linesNearPolygon poly lineFC radiusKm
  = FC (Some (filter
                (fun f => isLineString f
                          && turf_booleanIntersects
                               (footprint poly radiusKm) f)
                (featuresOf lineFC))).
Proof.
  unfold linesNearPolygon.
  destruct (noFeatures lineFC) eqn:e.
  - now rewrite (noFeatures_featuresOf _ e).
  - now rewrite push_loop.
Qed.

Lemma add_single (buf f : feature) (total : Q) :
  isLineString f = true -> turf_booleanIntersects buf f = true ->
  add buf total (Some (FC (Some [f]))) = total + turf_length f.
Proof. intros h1 h2. simpl. now rewrite h1, h2. Qed.

End Filter.

(** C3, as the code has it.  One line-string pipe of length 1 km that
    passes the 2 km pre-filter, lies 0.2 km from the centroid and meets the
    250 m buffer, and no sewer network: the local pipe length is the full
    length of the pipe, 1 km, and the readiness is
    0.6 (1 - 0.2/0.6) + 0.4 (1/1.5) = 2/3. *)
Theorem end_to_end_full_length {turf : Turf} (area pipe : feature) :
  isLineString pipe = true ->
  turf_booleanIntersects (footprint area 2) pipe = true ->
  turf_pointToLineDistance (turf_centroid area) pipe == 0.2 ->
  turf_length pipe == 1 ->
  turf_booleanIntersects (turf_buffer area 0.25) pipe = true ->
  sumLengthWithinBufferKm_local area (Some (FC (Some [pipe])))
    (Some (FC (Some []))) 0.25 == 1 /\
  distance_eq
    (_waterDist (analyseArea area (FC (Some [pipe])) (FC (Some []))))
    (Finite 0.2) /\
  _sewerDist (analyseArea area (FC (Some [pipe])) (FC (Some [])))
    = Infinity /\
  _pipeLen (analyseArea area (FC (Some [pipe])) (FC (Some []))) == 1 /\
  readiness (analyseArea area (FC (Some [pipe])) (FC (Some [])))
    == 0.6 * (1 - 0.2 / 0.6) + 0.4 * (1 / 1.5).
Proof.
  intros hline hnear hdist hlen hbuf.
  assert (hsum :
    sumLengthWithinBufferKm_local area (Some (FC (Some [pipe])))
      (Some (FC (Some []))) 0.25 == 1).
  { unfold sumLengthWithinBufferKm_local.
    rewrite (add_single _ _ _ hline hbuf). simpl. rewrite hlen.
    reflexivity. }
  assert (hnearW :
    linesNearPolygon area (Some (FC (Some [pipe]))) 2 = FC (Some [pipe])).
  { rewrite linesNearPolygon_filter. simpl. now rewrite hline, hnear. }
  unfold analyseArea. rewrite hnearW.
  change (linesNearPolygon area (Some (FC (Some []))) 2)
    with (FC (Some (@nil feature))).
  cbv zeta. cbn [_waterDist _sewerDist _pipeLen readiness].
  assert (hw :
    distance_eq
      (nearestLineDistanceKm_local (turf_centroid area)
         (Some (FC (Some [pipe]))))
      (Finite 0.2)) by (simpl; exact hdist).
  repeat split.
  - exact hsum.
  - exact hw.
  - exact hsum.
  - etransitivity.
    + apply (readinessScore_compat _ (Finite 0.2) _ Infinity _ 1);
        [ exact hw | exact I | exact hsum ].
    + reflexivity.
Qed.

Lemma end_to_end_full_length_witness :
  sumLengthWithinBufferKm_local FlatTurf.area
    (Some (FC (Some [FlatTurf.pipe]))) (Some (FC (Some []))) 0.25 == 1 /\
  distance_eq
    (_waterDist (analyseArea FlatTurf.area (FC (Some [FlatTurf.pipe]))
                   (FC (Some []))))
    (Finite 0.2) /\
  _sewerDist (analyseArea FlatTurf.area (FC (Some [FlatTurf.pipe]))
                (FC (Some [])))
    = Infinity /\
  _pipeLen (analyseArea FlatTurf.area (FC (Some [FlatTurf.pipe]))
              (FC (Some []))) == 1 /\
  readiness (analyseArea FlatTurf.area (FC (Some [FlatTurf.pipe]))
               (FC (Some [])))
    == 0.6 * (1 - 0.2 / 0.6) + 0.4 * (1 / 1.5).
Proof.
  apply (@end_to_end_full_length FlatTurf.flat FlatTurf.area FlatTurf.pipe);
    vm_compute; reflexivity.
Defined.

(** C3 as stated fails.  On the sample data 0.8 km of the 1 km pipe lies
    inside the 250 m buffer, yet the local pipe length is not 0.8 km and
    the readiness is not 0.6 (1 - 0.2/0.6) + 0.4 (0.8/1.5). *)
Lemma end_to_end_not_clipped :
  turf_length FlatTurf.pipe == 1 /\
  turf_pointToLineDistance (turf_centroid FlatTurf.area) FlatTurf.pipe
    == 0.2 /\
  FlatTurf.lengthInside (turf_buffer FlatTurf.area 0.25) FlatTurf.pipe
    == 0.8 /\
  ~ sumLengthWithinBufferKm_local FlatTurf.area
      (Some (linesNearPolygon FlatTurf.area
               (Some (FC (Some [FlatTurf.pipe]))) 2))
      (Some (linesNearPolygon FlatTurf.area (Some (FC (Some []))) 2))
      0.25 == 0.8 /\
  ~ readiness (analyseArea FlatTurf.area (FC (Some [FlatTurf.pipe]))
                 (FC (Some [])))
    == 0.6 * (1 - 0.2 / 0.6) + 0.4 * (0.8 / 1.5).
Proof.
  repeat split; try (vm_compute; reflexivity);
    intro h; vm_compute in h; discriminate h.
Qed.

(** C4, as the code has it.  The features [linesNearPolygon] returns are
    exactly the features of the collection that are line-strings and
    intersect the buffered bounding box; a multi-line-string feature is
    never among them. *)
Theorem linesNearPolygon_exactly_line_strings {turf : Turf}
    (poly : feature) (lineFC : option (FeatureCollection feature))
    (radiusKm : Q) :
  (forall f : feature,
      In f (featuresOf (Some (linesNearPolygon poly lineFC radiusKm))) <->
      In f (featuresOf lineFC) /\ isLineString f = true /\
      turf_booleanIntersects (footprint poly radiusKm) f = true) /\
  (forall f : feature,
      isMultiLineString f = true ->
      ~ In f (featuresOf (Some (linesNearPolygon poly lineFC radiusKm)))).
Proof.
  assert (char : forall f : feature,
      In f (featuresOf (Some (linesNearPolygon poly lineFC radiusKm))) <->
      In f (featuresOf lineFC) /\ isLineString f = true /\
      turf_booleanIntersects (footprint poly radiusKm) f = true).
  { intro f. rewrite linesNearPolygon_filter. simpl.
    rewrite filter_In, andb_true_iff. tauto. }
  split; [ exact char | ].
  intros f hm hin. apply char in hin. destruct hin as (_ & hl & _).
  unfold isLineString in hl. unfold isMultiLineString in hm.
  destruct (geometry_ f) as [[ | | | ] | ]; discriminate.
Qed.

(** C4 as stated fails.  A multi-line-string feature of the collection
    that intersects the buffered bounding box is left out. *)
Lemma linesNearPolygon_omits_multi_line :
  In FlatTurf.multiPipe
    (featuresOf (Some (FC (Some [FlatTurf.pipe; FlatTurf.multiPipe])))) /\
  isMultiLineString FlatTurf.multiPipe = true /\
  turf_booleanIntersects (footprint FlatTurf.area 2) FlatTurf.multiPipe
    = true /\
  ~ In FlatTurf.multiPipe
      (featuresOf
         (Some (linesNearPolygon FlatTurf.area
                  (Some (FC (Some [FlatTurf.pipe; FlatTurf.multiPipe])))
                  2))).
Proof.
  split; [ simpl; tauto | ].
  split; [ reflexivity | ].
  split; [ vm_compute; reflexivity | ].
  intro h. vm_compute in h. destruct h as [h | []]. discriminate h.
Qed.

(** C5.  When the footprint of the larger radius meets every feature of
    the collection that the footprint of the smaller radius meets, every
    feature returned for the smaller radius is returned for the larger. *)
Theorem linesNearPolygon_monotone {turf : Turf}
    (poly : feature) (lineFC : option (FeatureCollection feature))
    (r1 r2 : Q) :
  r1 <= r2 ->
  (forall f : feature,
      In f (featuresOf lineFC) ->
      turf_booleanIntersects (footprint poly r1) f = true ->
      turf_booleanIntersects (footprint poly r2) f = true) ->
  incl (featuresOf (Some (linesNearPolygon poly lineFC r1)))
    (featuresOf (Some (linesNearPolygon poly lineFC r2))).
Proof.
  intros _ grow f.
  rewrite !linesNearPolygon_filter. simpl.
  rewrite !filter_In, !andb_true_iff.
  intros (hin & hl & hx). auto.
Qed.

Lemma linesNearPolygon_monotone_witness :
  incl
    (featuresOf
       (Some (linesNearPolygon FlatTurf.area
                (Some (FC (Some [FlatTurf.pipe; FlatTurf.farPipe]))) 2)))
    (featuresOf
       (Some (linesNearPolygon FlatTurf.area
                (Some (FC (Some [FlatTurf.pipe; FlatTurf.farPipe]))) 3))).
Proof.
  apply (@linesNearPolygon_monotone FlatTurf.flat).
  - unfold Qle; simpl; lia.
  - intros f [<- | [<- | []]] _; vm_compute; reflexivity.
Defined.

End GisFacts.

(** * Properties of app.js *)

Module AppFacts.
Import JS GeoJSON App AppMore.

(** ** Paged retrieval *)

Section PagingFacts.
Context {F Bounds error : Type}.
Variable getBounds : Bounds.
Variable run : @query Bounds -> @reply F error.
Variables (url_ : string) (returnGeometry_ : bool)
          (where' : option string).

Local Abbreviation queryAt := (pageQuery getBounds url_ returnGeometry_ where').
Local Abbreviation loop := (pages getBounds run).
Local Open Scope Z_scope.

Lemma offsetOf_0 (off : Z) : offsetOf off 0 = off.
Proof. unfold offsetOf. simpl. lia. Qed.

Lemma offsetOf_S (off : Z) (k : nat) :
  offsetOf off (S k) = offsetOf (off + pageSize) k.
Proof. unfold offsetOf. lia. Qed.

Lemma log_shift (off : Z) (n : nat) :
  map (fun k => queryAt (offsetOf off k)) (seq 0 (S n))
  = queryAt off
    :: map (fun k => queryAt (offsetOf (off + pageSize) k)) (seq 0 n).
Proof.
  cbn [seq map]. rewrite offsetOf_0. f_equal.
  rewrite <- seq_shift, map_map.
  apply map_ext. intro k. now rewrite offsetOf_S.
Qed.

(** One round on a reply that delivers the batch [b]. *)
Lemma pages_delivered (rounds : nat) (off : Z) (all b : list F) :
  batchOf (run (queryAt off)) = Some b ->
  loop (S rounds) url_ returnGeometry_ where' off all
  = if Z.of_nat (List.length b) <? pageSize
    then ([queryAt off], Resolved (FC (Some (all ++ b))))
    else
      let '(log, p) :=
        loop rounds url_ returnGeometry_ where' (off + pageSize)
          (all ++ b) in
      (queryAt off :: log, p).
Proof.
  intro h. cbn [pages].
  destruct (run (queryAt off)) as [err | [fc | ]]; cbn [batchOf] in h.
  - discriminate h.
  - injection h as <-. reflexivity.
  - injection h as <-. reflexivity.
Qed.

(** One round on a failed request. *)
Lemma pages_failed (rounds : nat) (off : Z) (all : list F) (err : error) :
  run (queryAt off) = Failure err ->
  loop (S rounds) url_ returnGeometry_ where' off all
  = ([queryAt off], Rejected err).
Proof. intro h. cbn [pages]. now rewrite h. Qed.

Lemma pages_honest (ps : list (list F)) (last : list F) :
  Forall (fun p => Z.of_nat (List.length p) = pageSize) ps ->
  Z.of_nat (List.length last) < pageSize ->
  forall (off : Z) (all : list F) (rounds : nat),
    (forall k : nat,
        (k <= List.length ps)%nat ->
        batchOf (run (queryAt (offsetOf off k)))
        = Some (nth k (ps ++ [last]) [])) ->
    (List.length ps < rounds)%nat ->
    loop rounds url_ returnGeometry_ where' off all
    = (map (fun k => queryAt (offsetOf off k))
         (seq 0 (S (List.length ps))),
       Resolved (FC (Some (all ++ List.concat ps ++ last)))).
Proof.
  intros full short.
  induction full as [ | p ps hp full ih]; intros off all rounds served enough.
  - destruct rounds as [ | rounds]; [ simpl in enough; lia | ].
    pose proof (served 0%nat (Nat.le_refl _)) as h0.
    rewrite offsetOf_0 in h0.
    change (nth 0 ([] ++ [last]) []) with last in h0.
    rewrite (pages_delivered _ _ _ _ h0).
    apply Z.ltb_lt in short. rewrite short.
    cbn [List.length seq map List.concat List.app]. now rewrite offsetOf_0.
  - destruct rounds as [ | rounds]; [ simpl in enough; lia | ].
    pose proof (served 0%nat (Nat.le_0_l _)) as h0.
    rewrite offsetOf_0 in h0.
    change (nth 0 ((p :: ps) ++ [last]) []) with p in h0.
    rewrite (pages_delivered _ _ _ _ h0).
    assert (hfull : (Z.of_nat (List.length p) <? pageSize) = false)
      by (apply Z.ltb_ge; lia).
    rewrite hfull.
    rewrite (ih (off + pageSize) (all ++ p) rounds).
    + cbn [List.length]. rewrite (log_shift off).
      cbn [List.concat]. now rewrite <- !app_assoc.
    + intros k hk. rewrite <- offsetOf_S.
      apply (served (S k)). cbn [List.length]. lia.
    + cbn [List.length] in enough. lia.
Qed.

Lemma pages_rejected (k : nat) (err : error) :
  forall (off : Z) (all : list F) (rounds : nat),
    (forall j : nat,
        (j < k)%nat ->
        exists b : list F,
          batchOf (run (queryAt (offsetOf off j))) = Some b /\
          pageSize <= Z.of_nat (List.length b)) ->
    run (queryAt (offsetOf off k)) = Failure err ->
    (k < rounds)%nat ->
    loop rounds url_ returnGeometry_ where' off all
    = (map (fun j => queryAt (offsetOf off j)) (seq 0 (S k)),
       Rejected err).
Proof.
  induction k as [ | k ih]; intros off all rounds fullBefore failed enough.
  - destruct rounds as [ | rounds]; [ lia | ].
    rewrite offsetOf_0 in failed.
    rewrite (pages_failed _ _ _ _ failed).
    cbn [seq map]. now rewrite offsetOf_0.
  - destruct rounds as [ | rounds]; [ lia | ].
    destruct (fullBefore 0%nat (Nat.lt_0_succ _)) as (b & hb & hlen).
    rewrite offsetOf_0 in hb.
    rewrite (pages_delivered _ _ _ _ hb).
    assert (hfull : (Z.of_nat (List.length b) <? pageSize) = false)
      by (apply Z.ltb_ge; lia).
    rewrite hfull.
    rewrite (ih (off + pageSize) (all ++ b) rounds).
    + now rewrite (log_shift off).
    + intros j hj. rewrite <- offsetOf_S. apply fullBefore. lia.
    + rewrite <- offsetOf_S. exact failed.
    + lia.
Qed.

End PagingFacts.

(** C6.  When the service delivers the pages [ps], each of exactly
    [pageSize] features, and then a last page of fewer, [queryAllFeatures]
    finishes within one round more than there are full pages: it has run
    the queries at offsets 0, [pageSize], 2 [pageSize], ... in that order
    and resolves to the concatenation of the pages.  When the first page
    is empty it resolves, after one query, to an empty collection. *)
Theorem queryAllFeatures_concatenates_pages {F Bounds error : Type}
    (getBounds : Bounds) (run : @query Bounds -> @reply F error)
    (url_ : string) (returnGeometry_ : bool) (where' : option string) :
  (forall (ps : list (list F)) (last : list F),
      Forall (fun p => Z.of_nat (List.length p) = pageSize) ps ->
      (Z.of_nat (List.length last) < pageSize)%Z ->
      (forall k : nat,
          (k <= List.length ps)%nat ->
          batchOf
            (run (pageQuery getBounds url_ returnGeometry_ where'
                    (Z.of_nat k * pageSize)))
          = Some (nth k (ps ++ [last]) [])) ->
      forall rounds : nat,
        (List.length ps < rounds)%nat ->
        queryAllFeatures getBounds run rounds url_ returnGeometry_ where'
        = (map (fun k => pageQuery getBounds url_ returnGeometry_ where'
                           (Z.of_nat k * pageSize))
             (seq 0 (S (List.length ps))),
           Resolved (FC (Some (List.concat ps ++ last))))) /\
  (batchOf (run (pageQuery getBounds url_ returnGeometry_ where' 0))
   = Some [] ->
   forall rounds : nat,
     queryAllFeatures getBounds run (S rounds) url_ returnGeometry_ where'
     = ([pageQuery getBounds url_ returnGeometry_ where' 0],
        Resolved (FC (Some [])))).
Proof.
  split.
  - intros ps last full short served rounds enough.
    unfold queryAllFeatures.
    rewrite (pages_honest getBounds run url_ returnGeometry_ where' ps last
               full short 0%Z [] rounds).
    + reflexivity.
    + intros k hk. unfold offsetOf. rewrite Z.add_0_l. now apply served.
    + exact enough.
  - intros h rounds. unfold queryAllFeatures.
    rewrite (pages_delivered getBounds run url_ returnGeometry_ where'
               rounds 0%Z [] [] h).
    reflexivity.
Qed.

Lemma queryAllFeatures_concatenates_pages_witness :
  queryAllFeatures tt Samples.service 2 "waterMains" true None
  = (map (fun k => pageQuery tt "waterMains" true None
                     (Z.of_nat k * pageSize))
       (seq 0 2),
     Resolved
       (FC (Some (List.concat [repeat Samples.main150 2000]
                  ++ [Samples.main150; Samples.hydrant])))).
Proof.
  apply (proj1 (queryAllFeatures_concatenates_pages tt Samples.service
                  "waterMains" true None)
           [repeat Samples.main150 2000]
           [Samples.main150; Samples.hydrant]).
  - constructor; [ vm_compute; reflexivity | constructor ].
  - vm_compute; reflexivity.
  - intros [ | [ | k]] hk; [ reflexivity | reflexivity | simpl in hk; lia ].
  - simpl; lia.
Defined.

(** C7.  When the request of round [k] fails after [k] rounds that each
    delivered a full page, [queryAllFeatures] is rejected with that error:
    what it has run is the [k + 1] queries, and what the caller gets is
    the error, not a feature collection. *)
Theorem queryAllFeatures_rejects_whole {F Bounds error : Type}
    (getBounds : Bounds) (run : @query Bounds -> @reply F error)
    (url_ : string) (returnGeometry_ : bool) (where' : option string)
    (k : nat) (err : error) :
  (forall j : nat,
      (j < k)%nat ->
      exists b : list F,
        batchOf
          (run (pageQuery getBounds url_ returnGeometry_ where'
                  (Z.of_nat j * pageSize)))
        = Some b /\
        (pageSize <= Z.of_nat (List.length b))%Z) ->
  run (pageQuery getBounds url_ returnGeometry_ where'
         (Z.of_nat k * pageSize))
  = Failure err ->
  forall rounds : nat,
    (k < rounds)%nat ->
    queryAllFeatures getBounds run rounds url_ returnGeometry_ where'
    = (map (fun j => pageQuery getBounds url_ returnGeometry_ where'
                       (Z.of_nat j * pageSize))
         (seq 0 (S k)),
       Rejected err) /\
    forall fc : FeatureCollection F,
      snd (queryAllFeatures getBounds run rounds url_ returnGeometry_
             where')
      <> Resolved fc.
Proof.
  intros fullBefore failed rounds enough.
  assert (e :
    queryAllFeatures getBounds run rounds url_ returnGeometry_ where'
    = (map (fun j => pageQuery getBounds url_ returnGeometry_ where'
                       (Z.of_nat j * pageSize))
         (seq 0 (S k)),
       Rejected err)).
  { unfold queryAllFeatures.
    rewrite (pages_rejected getBounds run url_ returnGeometry_ where' k err
               0%Z [] rounds).
    - reflexivity.
    - intros j hj. unfold offsetOf. rewrite Z.add_0_l. now apply fullBefore.
    - unfold offsetOf. rewrite Z.add_0_l. exact failed.
    - exact enough. }
  split; [ exact e | ].
  intros fc. rewrite e. simpl. discriminate.
Qed.

Lemma queryAllFeatures_rejects_whole_witness :
  queryAllFeatures tt Samples.flaky 5 "waterMains" true None
  = (map (fun j => pageQuery tt "waterMains" true None
                     (Z.of_nat j * pageSize))
       (seq 0 2),
     Rejected "network error"%string) /\
  forall fc : FeatureCollection feature,
    snd (queryAllFeatures tt Samples.flaky 5 "waterMains" true None)
    <> Resolved fc.
Proof.
  apply (queryAllFeatures_rejects_whole tt Samples.flaky "waterMains" true
           None 1 "network error"%string).
  - intros j hj. assert (j = 0)%nat as -> by lia.
    exists (repeat Samples.main150 2000).
    split; [ reflexivity | vm_compute; discriminate ].
  - reflexivity.
  - lia.
Defined.

(** ** Length in view *)

Section AggregationFacts.
Variable turf_bboxClip : feature -> BBox -> option feature.
Variable turf_length : feature -> option Q.
Variable StringToNumber : string -> number.

Local Abbreviation addLen' := (addLen turf_bboxClip turf_length StringToNumber).
Local Abbreviation visit' := (visit turf_bboxClip turf_length StringToNumber).
Local Abbreviation throws := (addLenThrows turf_bboxClip turf_length).
Local Abbreviation after := (App.after turf_bboxClip turf_length StringToNumber).

Lemma forOf_tryCatch {A : Type} (body : A -> M unit) (l : list A)
    (s : store) :
  forOf l (fun x => tryCatch (body x)) s
  = (Some tt, fold_left (fun s x => snd (body x s)) l s).
Proof.
  revert s. induction l as [ | x l ih]; intro s; [ reflexivity | ].
  cbn [forOf fold_left]. unfold bind at 1. unfold tryCatch at 1.
  apply ih.
Qed.

Lemma forOf_app {A : Type} (body : A -> M unit) (l1 l2 : list A)
    (s : store) :
  forOf (l1 ++ l2) body s
  = match forOf l1 body s with
    | (Some _, s') => forOf l2 body s'
    | (None, s') => (None, s')
    end.
Proof.
  revert s. induction l1 as [ | x l1 ih]; intro s; [ reflexivity | ].
  cbn [List.app forOf]. unfold bind.
  destruct (body x s) as [[[] | ] s']; [ apply ih | reflexivity ].
Qed.

(** [addLen] writes nothing before it throws. *)
Lemma addLen_throws (f : feature) (bbox : BBox) (coords : list position)
    (s : store) :
  throws f bbox coords = true -> addLen' f bbox coords s = (None, s).
Proof.
  unfold addLenThrows, addLen, bind, returned.
  destruct (turf_bboxClip _ bbox) as [clipped | ]; [ | reflexivity ].
  destruct (turf_length clipped) as [km | ]; [ discriminate | reflexivity ].
Qed.

Lemma addLen_completes (f : feature) (bbox : BBox)
    (coords : list position) (s : store) :
  throws f bbox coords = false ->
  exists s' : store, addLen' f bbox coords s = (Some tt, s').
Proof.
  unfold addLenThrows, addLen, bind, returned, modify.
  destruct (turf_bboxClip _ bbox) as [clipped | ]; [ | discriminate ].
  destruct (turf_length clipped) as [km | ]; [ | discriminate ].
  intros _. eexists. reflexivity.
Qed.

Lemma forOf_sound_parts (f : feature) (bbox : BBox)
    (parts : list (list position)) :
  Forall (fun coords => throws f bbox coords = false) parts ->
  forall s : store,
    exists s' : store, forOf parts (addLen' f bbox) s = (Some tt, s').
Proof.
  induction 1 as [ | coords parts hc _ ih]; intro s.
  - exists s. reflexivity.
  - cbn [forOf]. unfold bind.
    destruct (addLen_completes f bbox coords s hc) as (s1 & e1).
    rewrite e1. apply ih.
Qed.

Lemma after_skipped (bbox : BBox) (f : option feature) (s : store) :
  skipped turf_bboxClip turf_length bbox f = true -> after bbox s f = s.
Proof.
  unfold after, skipped, visit.
  destruct f as [f | ]; [ | reflexivity ].
  destruct (geometry_ f) as [[c | cs | ps | rs] | ];
    try reflexivity; try discriminate.
  intro h. now rewrite (addLen_throws f bbox cs s h).
Qed.

(** A multi-line-string that throws on a part leaves the store as its
    parts before that one left it. *)
Lemma after_broken_multi (bbox : BBox) (props : option object)
    (sound : list (list position)) (bad : list position)
    (rest : list (list position)) (s : store) :
  let f := Feature (Some (MultiLineString (sound ++ bad :: rest))) props in
  Forall (fun coords => throws f bbox coords = false) sound ->
  throws f bbox bad = true ->
  after bbox s (Some f)
  = after bbox s (Some (Feature (Some (MultiLineString sound)) props)).
Proof.
  intros f hsound hbad. unfold after, visit. cbn [geometry_ f].
  change (addLen' (Feature (Some (MultiLineString sound)) props) bbox)
    with (addLen' f bbox).
  rewrite forOf_app.
  destruct (forOf_sound_parts f bbox sound hsound s) as (s1 & e1).
  rewrite e1. cbn [forOf]. unfold bind at 1.
  now rewrite (addLen_throws f bbox bad s1 hbad).
Qed.

Lemma lengthInViewKm_sweep (feats : list (option feature)) (bbox : BBox)
    (m : option Map) :
  callLengthInViewKm turf_bboxClip turf_length StringToNumber
    (Some (FC (Some feats))) bbox m
  = (Some (totalKm (fold_left (after bbox) feats (Store 0 m))),
     byDiameterMap (fold_left (after bbox) feats (Store 0 m))).
Proof.
  unfold callLengthInViewKm, lengthInViewKm. cbn [features].
  unfold bind at 1. unfold modify at 1. cbn [byDiameterMap].
  unfold bind at 1. rewrite forOf_tryCatch. reflexivity.
Qed.

(** A line-string that is clipped and measured adds its clipped length to
    the total. *)
Lemma after_sound_line (bbox : BBox) (f clipped : feature)
    (coords : list position) (km : Q) (s : store) :
  geometry_ f = Some (LineString coords) ->
  turf_bboxClip (partOf f coords) bbox = Some clipped ->
  turf_length clipped = Some km ->
  totalKm (after bbox s (Some f)) = (totalKm s + km)%Q.
Proof.
  intros hg hc hl. unfold App.after, visit. rewrite hg.
  unfold addLen, bind, returned, modify. rewrite hc, hl. cbn [snd].
  cbn [byDiameterMap totalKm].
  destruct (byDiameterMap s) as [m | ]; [ | reflexivity ].
  destruct (Number_ StringToNumber _); reflexivity.
Qed.

End AggregationFacts.

(** ** What the length in view adds up *)

Section ContributionFacts.
Variable turf_bboxClip : feature -> BBox -> option feature.
Variable turf_length : feature -> option Q.
Variable StringToNumber : string -> number.
Local Open Scope Q_scope.

Local Abbreviation addLen' :=
  (addLen turf_bboxClip turf_length StringToNumber).
Local Abbreviation after' :=
  (App.after turf_bboxClip turf_length StringToNumber).
Local Abbreviation partKm' := (partKm turf_bboxClip turf_length).
Local Abbreviation partsKm' := (partsKm turf_bboxClip turf_length).
Local Abbreviation gain' := (gain turf_bboxClip turf_length).
Local Abbreviation binnedGain' :=
  (binnedGain turf_bboxClip turf_length StringToNumber).
Local Abbreviation diameterOf' := (diameterOf StringToNumber).

Lemma mapSum_set (m : Map) (d km : Q) :
  mapSum
    (Map_set m d
       (match Map_get m d with Some v => v | None => 0 end + km))
  == mapSum m + km.
Proof.
  induction m as [ | [k v] m ih]; cbn [Map_set Map_get mapSum fold_right snd].
  - ring.
  - destruct (Qeq_bool k d); cbn [mapSum fold_right snd].
    + ring.
    + fold (mapSum m).
      fold (mapSum
              (Map_set m d
                 (match Map_get m d with Some v0 => v0 | None => 0 end
                  + km))).
      rewrite ih. ring.
Qed.

(** The diameter the second half of [addLen] reads is that of the
    feature. *)
Lemma part_diameter (f : feature) (coords : list position) :
  Number_ StringToNumber
    (match properties (partOf f coords) with
     | Some o => get o "nominaldiameter"
     | None => Undefined
     end)
  = diameterOf' f.
Proof.
  unfold partOf, diameterOf. cbn [properties].
  destruct (properties f); reflexivity.
Qed.

(** What one [addLen] does: nothing when it throws, otherwise the length
    goes to the total, and to the map when the diameter is finite. *)
Lemma addLen_effect (f : feature) (bbox : BBox) (coords : list position)
    (s : store) :
  match partKm' f bbox coords with
  | None => addLen' f bbox coords s = (None, s)
  | Some km =>
      exists s' : store,
        addLen' f bbox coords s = (Some tt, s') /\
        totalKm s' = totalKm s + km /\
        match byDiameterMap s with
        | None => byDiameterMap s' = None
        | Some m =>
            exists m' : Map,
              byDiameterMap s' = Some m' /\
              mapSum m'
              == mapSum m + (if isFinite (diameterOf' f) then km else 0)
        end
  end.
Proof.
  unfold partKm, addLen, bind, returned, modify.
  destruct (turf_bboxClip (partOf f coords) bbox) as [clipped | ];
    [ | reflexivity ].
  destruct (turf_length clipped) as [km | ]; [ | reflexivity ].
  eexists. split; [ reflexivity | ].
  cbn [byDiameterMap totalKm]. rewrite part_diameter.
  destruct (byDiameterMap s) as [m | ].
  - destruct (diameterOf' f) as [d | | | ]; cbn [totalKm byDiameterMap isFinite].
    + split; [ reflexivity | ]. eexists. split; [ reflexivity | ].
      apply mapSum_set.
    + split; [ reflexivity | ]. exists m. split; [ reflexivity | ring ].
    + split; [ reflexivity | ]. exists m. split; [ reflexivity | ring ].
    + split; [ reflexivity | ]. exists m. split; [ reflexivity | ring ].
  - split; reflexivity.
Qed.

(** The store after the parts of a multi-line-string, up to the first that
    throws. *)
Lemma parts_effect (f : feature) (bbox : BBox)
    (parts : list (list position)) :
  forall s : store,
    totalKm (snd (forOf parts (addLen' f bbox) s))
    == totalKm s + partsKm' f bbox parts /\
    match byDiameterMap s with
    | None => byDiameterMap (snd (forOf parts (addLen' f bbox) s)) = None
    | Some m =>
        exists m' : Map,
          byDiameterMap (snd (forOf parts (addLen' f bbox) s)) = Some m' /\
          mapSum m'
          == mapSum m
             + (if isFinite (diameterOf' f) then partsKm' f bbox parts
                else 0)
    end.
Proof.
  induction parts as [ | coords parts ih]; intro s.
  - cbn [forOf partsKm]. unfold ret. cbn [snd]. split; [ ring | ].
    destruct (byDiameterMap s) as [m | ]; [ | reflexivity ].
    exists m. split; [ reflexivity | ]. destruct (isFinite _); ring.
  - cbn [forOf partsKm]. unfold bind.
    pose proof (addLen_effect f bbox coords s) as h.
    destruct (partKm' f bbox coords) as [km | ].
    + destruct h as (s1 & e1 & ht & hm). rewrite e1.
      destruct (ih s1) as [iht ihm]. split.
      * rewrite iht, ht. ring.
      * destruct (byDiameterMap s) as [m | ].
        -- destruct hm as (m1 & em1 & hs1). rewrite em1 in ihm.
           destruct ihm as (m' & em' & hs'). exists m'.
           split; [ exact em' | ]. rewrite hs', hs1.
           destruct (isFinite _); ring.
        -- rewrite hm in ihm. exact ihm.
    + rewrite h. cbn [snd]. split; [ ring | ].
      destruct (byDiameterMap s) as [m | ]; [ | reflexivity ].
      exists m. split; [ reflexivity | ]. destruct (isFinite _); ring.
Qed.

Lemma after_effect (bbox : BBox) (f : option feature) (s : store) :
  totalKm (after' bbox s f) == totalKm s + gain' bbox f /\
  match byDiameterMap s with
  | None => byDiameterMap (after' bbox s f) = None
  | Some m =>
      exists m' : Map,
        byDiameterMap (after' bbox s f) = Some m' /\
        mapSum m' == mapSum m + binnedGain' bbox f
  end.
Proof.
  assert (same : forall s0 : store,
    totalKm s0 == totalKm s0 + 0 /\
    match byDiameterMap s0 with
    | None => byDiameterMap s0 = None
    | Some m =>
        exists m' : Map, byDiameterMap s0 = Some m' /\ mapSum m' == mapSum m + 0
    end).
  { intro s0. split; [ ring | ].
    destruct (byDiameterMap s0) as [m | ]; [ | reflexivity ].
    exists m. split; [ reflexivity | ring ]. }
  unfold App.after, visit, gain, binnedGain.
  destruct f as [f | ]; [ | exact (same s) ].
  unfold gain.
  destruct (geometry_ f) as [[c | cs | ps | rs] | ] eqn:hg; cbn [snd ret].
  - destruct (same s) as [h1 h2]. split; [ exact h1 | ].
    destruct (byDiameterMap s) as [m | ]; [ | reflexivity ].
    exists m. split; [ reflexivity | ]. destruct (isFinite _); ring.
  - pose proof (addLen_effect f bbox cs s) as h.
    destruct (partKm' f bbox cs) as [km | ].
    + destruct h as (s1 & e1 & ht & hm). rewrite e1. cbn [snd].
      split; [ now rewrite ht | ].
      destruct (byDiameterMap s) as [m | ]; exact hm.
    + rewrite h. cbn [snd]. split; [ ring | ].
      destruct (byDiameterMap s) as [m | ]; [ | reflexivity ].
      exists m. split; [ reflexivity | ]. destruct (isFinite _); ring.
  - apply parts_effect.
  - destruct (same s) as [h1 h2]. split; [ exact h1 | ].
    destruct (byDiameterMap s) as [m | ]; [ | reflexivity ].
    exists m. split; [ reflexivity | ]. destruct (isFinite _); ring.
  - destruct (same s) as [h1 h2]. split; [ exact h1 | ].
    destruct (byDiameterMap s) as [m | ]; [ | reflexivity ].
    exists m. split; [ reflexivity | ]. destruct (isFinite _); ring.
Qed.

Lemma sweep_effect (bbox : BBox) (feats : list (option feature)) :
  forall s : store,
    totalKm (fold_left (after' bbox) feats s)
    == totalKm s + sumOf (gain' bbox) feats /\
    match byDiameterMap s with
    | None => byDiameterMap (fold_left (after' bbox) feats s) = None
    | Some m =>
        exists m' : Map,
          byDiameterMap (fold_left (after' bbox) feats s) = Some m' /\
          mapSum m' == mapSum m + sumOf (binnedGain' bbox) feats
    end.
Proof.
  induction feats as [ | f feats ih]; intro s; cbn [fold_left sumOf fold_right].
  - split; [ ring | ].
    destruct (byDiameterMap s) as [m | ]; [ | reflexivity ].
    exists m. split; [ reflexivity | ring ].
  - destruct (after_effect bbox f s) as [ht hm].
    destruct (ih (after' bbox s f)) as [iht ihm].
    fold (sumOf (gain' bbox) feats). fold (sumOf (binnedGain' bbox) feats).
    split; [ rewrite iht, ht; ring | ].
    destruct (byDiameterMap s) as [m | ].
    + destruct hm as (m1 & em1 & hs1). rewrite em1 in ihm.
      destruct ihm as (m' & em' & hs'). exists m'.
      split; [ exact em' | ]. rewrite hs', hs1. ring.
    + rewrite hm in ihm. exact ihm.
Qed.

Lemma sumOf_app (g : option feature -> Q) (l1 l2 : list (option feature)) :
  sumOf g (l1 ++ l2) == sumOf g l1 + sumOf g l2.
Proof.
  induction l1 as [ | f l1 ih].
  - change (sumOf g ([] ++ l2)) with (sumOf g l2).
    change (sumOf g []) with 0. ring.
  - change (sumOf g ((f :: l1) ++ l2)) with (g f + sumOf g (l1 ++ l2)).
    change (sumOf g (f :: l1)) with (g f + sumOf g l1).
    rewrite ih. ring.
Qed.

(** *** Bin by bin *)

Lemma Qeq_bool_left (a b d : Q) : a == b -> Qeq_bool a d = Qeq_bool b d.
Proof.
  intro e. destruct (Qeq_bool b d) eqn:h.
  - apply Qeq_bool_iff. apply Qeq_bool_iff in h. now rewrite e.
  - apply not_true_is_false. intro h'. apply Qeq_bool_iff in h'.
    rewrite e in h'. apply Qeq_bool_iff in h'. congruence.
Qed.

Lemma Qeq_bool_right (k a b : Q) : a == b -> Qeq_bool k a = Qeq_bool k b.
Proof.
  intro e. destruct (Qeq_bool k b) eqn:h.
  - apply Qeq_bool_iff. apply Qeq_bool_iff in h. now rewrite e.
  - apply not_true_is_false. intro h'. apply Qeq_bool_iff in h'.
    rewrite e in h'. apply Qeq_bool_iff in h'. congruence.
Qed.

Lemma Map_get_compat (m : Map) (a b : Q) :
  a == b -> Map_get m a = Map_get m b.
Proof.
  intro e. induction m as [ | [k v] m ih]; cbn [Map_get]; [ reflexivity | ].
  now rewrite ih, (Qeq_bool_right k a b e).
Qed.

(** [m.set(d, v)] then [m.get(d')] *)
Lemma Map_get_set (m : Map) (d v d' : Q) :
  Map_get (Map_set m d v) d'
  = if Qeq_bool d d' then Some v else Map_get m d'.
Proof.
  induction m as [ | [k v'] m ih]; cbn [Map_set Map_get]; [ reflexivity | ].
  destruct (Qeq_bool k d) eqn:hk; cbn [Map_get].
  - apply Qeq_bool_iff in hk. rewrite (Qeq_bool_left k d d' hk).
    now destruct (Qeq_bool d d').
  - rewrite ih. destruct (Qeq_bool d d') eqn:hd; [ | reflexivity ].
    destruct (Qeq_bool k d') eqn:hk'; [ | reflexivity ].
    apply Qeq_bool_iff in hd, hk'.
    assert (k == d) as e by (now rewrite hd).
    apply Qeq_bool_iff in e. congruence.
Qed.

Lemma binOf_set (m : Map) (d km d' : Q) :
  binOf (Map_set m d (binOf m d + km)) d'
  == binOf m d' + (if Qeq_bool d d' then km else 0).
Proof.
  unfold binOf at 1. rewrite Map_get_set.
  destruct (Qeq_bool d d') eqn:hd.
  - apply Qeq_bool_iff in hd. unfold binOf.
    rewrite (Map_get_compat m d d' hd). reflexivity.
  - fold (binOf m d'). ring.
Qed.

Lemma binKm_zero (f : feature) (d : Q) :
  binKm StringToNumber f d 0 == 0.
Proof.
  unfold binKm. destruct (diameterOf' f) as [d' | | | ]; try reflexivity.
  now destruct (Qeq_bool d' d).
Qed.

Lemma binKm_plus (f : feature) (d a b : Q) :
  binKm StringToNumber f d (a + b)
  == binKm StringToNumber f d a + binKm StringToNumber f d b.
Proof.
  unfold binKm. destruct (diameterOf' f) as [d' | | | ]; try ring.
  destruct (Qeq_bool d' d); ring.
Qed.

(** What one [addLen] that does not throw does to the bins of a map. *)
Lemma addLen_bins (f : feature) (bbox : BBox) (coords : list position)
    (km : Q) (s : store) (m : Map) :
  byDiameterMap s = Some m ->
  partKm' f bbox coords = Some km ->
  exists m' : Map,
    addLen' f bbox coords s = (Some tt, Store (totalKm s + km) (Some m')) /\
    forall d : Q, binOf m' d == binOf m d + binKm StringToNumber f d km.
Proof.
  unfold partKm, addLen, bind, returned, modify. intros hm.
  destruct (turf_bboxClip (partOf f coords) bbox) as [clipped | ];
    [ | discriminate ].
  intros ->. cbn [byDiameterMap totalKm]. rewrite part_diameter, hm.
  unfold binKm.
  destruct (diameterOf' f) as [d0 | | | ].
  - eexists. split; [ reflexivity | ]. intro d. apply binOf_set.
  - exists m. split; [ now rewrite <- hm; destruct s | intro d; ring ].
  - exists m. split; [ now rewrite <- hm; destruct s | intro d; ring ].
  - exists m. split; [ now rewrite <- hm; destruct s | intro d; ring ].
Qed.

Lemma parts_bins (f : feature) (bbox : BBox)
    (parts : list (list position)) :
  forall (s : store) (m : Map),
    byDiameterMap s = Some m ->
    exists m' : Map,
      byDiameterMap (snd (forOf parts (addLen' f bbox) s)) = Some m' /\
      forall d : Q,
        binOf m' d
        == binOf m d + binKm StringToNumber f d (partsKm' f bbox parts).
Proof.
  induction parts as [ | coords parts ih]; intros s m hm.
  - cbn [forOf partsKm]. unfold ret. cbn [snd]. exists m.
    split; [ exact hm | ]. intro d. rewrite binKm_zero. ring.
  - cbn [forOf partsKm]. unfold bind.
    pose proof (addLen_effect f bbox coords s) as h.
    destruct (partKm' f bbox coords) as [km | ] eqn:hp.
    + destruct (addLen_bins f bbox coords km s m hm hp) as (m1 & e1 & h1).
      rewrite e1.
      destruct (ih (Store (totalKm s + km) (Some m1)) m1 eq_refl)
        as (m' & em' & h').
      exists m'. split; [ exact em' | ]. intro d.
      rewrite h', h1, binKm_plus. ring.
    + rewrite h. cbn [snd]. exists m. split; [ exact hm | ].
      intro d. rewrite binKm_zero. ring.
Qed.

Lemma after_bins (bbox : BBox) (f : option feature) (s : store) (m : Map) :
  byDiameterMap s = Some m ->
  exists m' : Map,
    byDiameterMap (after' bbox s f) = Some m' /\
    forall d : Q,
      binOf m' d
      == binOf m d + binGain turf_bboxClip turf_length StringToNumber bbox d f.
Proof.
  intro hm.
  assert (same : forall f' : feature,
    exists m' : Map,
      byDiameterMap s = Some m' /\
      forall d : Q,
        binOf m' d == binOf m d + binKm StringToNumber f' d 0).
  { intro f'. exists m. split; [ exact hm | ].
    intro d. rewrite binKm_zero. ring. }
  unfold App.after, visit, binGain.
  destruct f as [f | ].
  - unfold gain.
    destruct (geometry_ f) as [[c | cs | ps | rs] | ] eqn:hg; cbn [snd ret];
      try apply same.
    + pose proof (addLen_effect f bbox cs s) as h.
      destruct (partKm' f bbox cs) as [km | ] eqn:hp.
      * destruct (addLen_bins f bbox cs km s m hm hp) as (m1 & e1 & h1).
        rewrite e1. cbn [snd byDiameterMap]. exists m1.
        split; [ reflexivity | exact h1 ].
      * rewrite h. cbn [snd]. apply same.
    + apply parts_bins, hm.
  - cbn [snd ret]. exists m. split; [ exact hm | intro d; ring ].
Qed.

Lemma sweep_bins (bbox : BBox) (feats : list (option feature)) :
  forall (s : store) (m : Map),
    byDiameterMap s = Some m ->
    exists m' : Map,
      byDiameterMap (fold_left (after' bbox) feats s) = Some m' /\
      forall d : Q,
        binOf m' d
        == binOf m d
           + sumOf
               (binGain turf_bboxClip turf_length StringToNumber bbox d)
               feats.
Proof.
  induction feats as [ | f feats ih]; intros s m hm;
    cbn [fold_left sumOf fold_right].
  - exists m. split; [ exact hm | intro d; ring ].
  - destruct (after_bins bbox f s m hm) as (m1 & e1 & h1).
    destruct (ih (after' bbox s f) m1 e1) as (m' & em' & h').
    exists m'. split; [ exact em' | ]. intro d.
    fold (sumOf (binGain turf_bboxClip turf_length StringToNumber bbox d)
            feats).
    rewrite h', h1. ring.
Qed.

(** The parts of a multi-line-string up to the first that throws. *)
Lemma partsKm_prefix (f : feature) (bbox : BBox)
    (sound : list (list position)) (bad : list position)
    (rest : list (list position)) (kms : list Q) :
  Forall2 (fun coords km => partKm' f bbox coords = Some km) sound kms ->
  partKm' f bbox bad = None ->
  partsKm' f bbox (sound ++ bad :: rest) = fold_right Qplus 0 kms.
Proof.
  intros hs hb. induction hs as [ | coords km sound kms hc _ ih].
  - cbn [List.app partsKm fold_right]. now rewrite hb.
  - cbn [List.app partsKm fold_right]. now rewrite hc, ih.
Qed.

(** What taking one entry out of a collection changes: the total by what
    the entry counts for, and each bin by what it counts for there. *)
Lemma entry_total (bbox : BBox) (before behind : list (option feature))
    (f : option feature) (m : option Map) (total : Q) :
  fst (callLengthInViewKm turf_bboxClip turf_length StringToNumber
         (Some (FC (Some (before ++ behind)))) bbox m)
  = Some total ->
  exists total' : Q,
    fst (callLengthInViewKm turf_bboxClip turf_length StringToNumber
           (Some (FC (Some (before ++ f :: behind)))) bbox m)
    = Some total' /\
    total' == total + gain' bbox f.
Proof.
  rewrite !lengthInViewKm_sweep. cbn [fst]. intro h. injection h as <-.
  eexists. split; [ reflexivity | ].
  destruct (sweep_effect bbox (before ++ f :: behind) (Store 0 m)) as [h1 _].
  destruct (sweep_effect bbox (before ++ behind) (Store 0 m)) as [h2 _].
  rewrite h1, h2, !sumOf_app.
  change (sumOf (gain' bbox) (f :: behind))
    with (gain' bbox f + sumOf (gain' bbox) behind).
  ring.
Qed.

Lemma entry_bins (bbox : BBox) (before behind : list (option feature))
    (f : option feature) (m0 m1 : Map) :
  snd (callLengthInViewKm turf_bboxClip turf_length StringToNumber
         (Some (FC (Some (before ++ behind)))) bbox (Some m0))
  = Some m1 ->
  exists m2 : Map,
    snd (callLengthInViewKm turf_bboxClip turf_length StringToNumber
           (Some (FC (Some (before ++ f :: behind)))) bbox (Some m0))
    = Some m2 /\
    forall d : Q,
      binOf m2 d
      == binOf m1 d
         + binGain turf_bboxClip turf_length StringToNumber bbox d f.
Proof.
  rewrite !lengthInViewKm_sweep. cbn [snd]. intro h.
  destruct (sweep_bins bbox (before ++ f :: behind) (Store 0 (Some m0)) m0
              eq_refl) as (m2 & e2 & h2).
  destruct (sweep_bins bbox (before ++ behind) (Store 0 (Some m0)) m0
              eq_refl) as (m1' & e1 & h1).
  assert (m1' = m1) as -> by congruence.
  exists m2. split; [ exact e2 | ]. intro d.
  rewrite h2, h1, !sumOf_app.
  change (sumOf (binGain turf_bboxClip turf_length StringToNumber bbox d)
            (f :: behind))
    with (binGain turf_bboxClip turf_length StringToNumber bbox d f
          + sumOf (binGain turf_bboxClip turf_length StringToNumber bbox d)
              behind).
  ring.
Qed.

End ContributionFacts.

(** C10.  [lengthInViewKm] always returns a number.  An entry that is
    [null], has no geometry, has a geometry that is not a line, or is a
    line-string on which clipping or measuring throws, changes neither the
    total nor the diameter map, and the entries around it count as without
    it.  A multi-line-string that throws on one of its parts counts as the
    multi-line-string of the parts before that one.  A line-string that is
    clipped and measured adds its clipped length to the total.  A
    multi-line-string that throws on one of its parts adds to the total the
    lengths measured for the parts before that one, and nothing else; when
    a map is passed and its diameter is a finite number, it adds the same
    lengths to the bin of its diameter and leaves every other bin as it
    is. *)
Theorem lengthInViewKm_total_and_tolerant
    (turf_bboxClip : feature -> BBox -> option feature)
    (turf_length : feature -> option Q)
    (StringToNumber : string -> number) (bbox : BBox) (m : option Map) :
  (forall fc : option (FeatureCollection (option feature)),
      exists (total : Q) (m' : option Map),
        callLengthInViewKm turf_bboxClip turf_length StringToNumber fc bbox m
        = (Some total, m')) /\
  (forall (before behind : list (option feature)) (f : option feature),
      skipped turf_bboxClip turf_length bbox f = true ->
      callLengthInViewKm turf_bboxClip turf_length StringToNumber
        (Some (FC (Some (before ++ f :: behind)))) bbox m
      = callLengthInViewKm turf_bboxClip turf_length StringToNumber
          (Some (FC (Some (before ++ behind)))) bbox m) /\
  (forall (before behind : list (option feature)) (props : option object)
          (sound : list (list position)) (bad : list position)
          (rest : list (list position)),
      Forall
        (fun coords =>
           addLenThrows turf_bboxClip turf_length
             (Feature (Some (MultiLineString (sound ++ bad :: rest))) props)
             bbox coords = false)
        sound ->
      addLenThrows turf_bboxClip turf_length
        (Feature (Some (MultiLineString (sound ++ bad :: rest))) props)
        bbox bad = true ->
      callLengthInViewKm turf_bboxClip turf_length StringToNumber
        (Some (FC (Some
           (before
            ++ Some (Feature (Some (MultiLineString (sound ++ bad :: rest)))
                       props)
            :: behind))))
        bbox m
      = callLengthInViewKm turf_bboxClip turf_length StringToNumber
          (Some (FC (Some
             (before
              ++ Some (Feature (Some (MultiLineString sound)) props)
              :: behind))))
          bbox m) /\
  (forall (before : list (option feature)) (f clipped : feature)
          (coords : list position) (km total : Q),
      geometry_ f = Some (LineString coords) ->
      turf_bboxClip (partOf f coords) bbox = Some clipped ->
      turf_length clipped = Some km ->
      fst (callLengthInViewKm turf_bboxClip turf_length StringToNumber
             (Some (FC (Some before))) bbox m)
      = Some total ->
      fst (callLengthInViewKm turf_bboxClip turf_length StringToNumber
             (Some (FC (Some (before ++ [Some f])))) bbox m)
      = Some (total + km)%Q) /\
  (forall (before behind : list (option feature)) (f : feature)
          (sound : list (list position)) (bad : list position)
          (rest : list (list position)) (kms : list Q) (total : Q),
      geometry_ f = Some (MultiLineString (sound ++ bad :: rest)) ->
      Forall2
        (fun coords km =>
           partKm turf_bboxClip turf_length f bbox coords = Some km)
        sound kms ->
      partKm turf_bboxClip turf_length f bbox bad = None ->
      fst (callLengthInViewKm turf_bboxClip turf_length StringToNumber
             (Some (FC (Some (before ++ behind)))) bbox m)
      = Some total ->
      exists total' : Q,
        fst (callLengthInViewKm turf_bboxClip turf_length StringToNumber
               (Some (FC (Some (before ++ Some f :: behind)))) bbox m)
        = Some total' /\
        (total' == total + fold_right Qplus 0 kms)%Q) /\
  (forall (before behind : list (option feature)) (f : feature)
          (sound : list (list position)) (bad : list position)
          (rest : list (list position)) (kms : list Q) (d : Q)
          (m0 m1 : Map),
      geometry_ f = Some (MultiLineString (sound ++ bad :: rest)) ->
      Forall2
        (fun coords km =>
           partKm turf_bboxClip turf_length f bbox coords = Some km)
        sound kms ->
      partKm turf_bboxClip turf_length f bbox bad = None ->
      diameterOf StringToNumber f = Num d ->
      snd (callLengthInViewKm turf_bboxClip turf_length StringToNumber
             (Some (FC (Some (before ++ behind)))) bbox (Some m0))
      = Some m1 ->
      exists m2 : Map,
        snd (callLengthInViewKm turf_bboxClip turf_length StringToNumber
               (Some (FC (Some (before ++ Some f :: behind)))) bbox
               (Some m0))
        = Some m2 /\
        (binOf m2 d == binOf m1 d + fold_right Qplus 0 kms)%Q /\
        forall d' : Q, ~ (d' == d)%Q -> (binOf m2 d' == binOf m1 d')%Q).
Proof.
  split; [ | split; [ | split; [ | split; [ | split ] ] ] ].
  - intros [[[feats | ]] | ].
    + rewrite lengthInViewKm_sweep. eauto.
    + exists 0%Q, m. reflexivity.
    + exists 0%Q, m. reflexivity.
  - intros before behind f hskip.
    rewrite !lengthInViewKm_sweep, !fold_left_app. cbn [fold_left].
    now rewrite (after_skipped _ _ _ _ _ _ hskip).
  - intros before behind props sound bad rest hsound hbad.
    rewrite !lengthInViewKm_sweep, !fold_left_app. cbn [fold_left].
    now rewrite (after_broken_multi _ _ _ bbox props sound bad rest _
                   hsound hbad).
  - intros before f clipped coords km total hg hc hl.
    rewrite !lengthInViewKm_sweep, fold_left_app. cbn [fold_left fst].
    intro h. injection h as <-.
    now rewrite (after_sound_line _ _ _ bbox f clipped coords km _ hg hc hl).
  - intros before behind f sound bad rest kms total hg hs hb ht.
    destruct (entry_total turf_bboxClip turf_length StringToNumber bbox
                before behind (Some f) m total ht) as (total' & e & h).
    exists total'. split; [ exact e | ].
    rewrite h. cbn [gain]. rewrite hg.
    now rewrite (partsKm_prefix turf_bboxClip turf_length f bbox sound bad
                   rest kms hs hb).
  - intros before behind f sound bad rest kms d m0 m1 hg hs hb hd hm.
    destruct (entry_bins turf_bboxClip turf_length StringToNumber bbox
                before behind (Some f) m0 m1 hm) as (m2 & e & h).
    exists m2. split; [ exact e | ].
    assert (bin : forall d' : Q,
      (binOf m2 d'
       == binOf m1 d'
          + (if Qeq_bool d d' then fold_right Qplus 0 kms else 0))%Q).
    { intro d'. rewrite h. cbn [binGain gain]. rewrite hg.
      rewrite (partsKm_prefix turf_bboxClip turf_length f bbox sound bad
                 rest kms hs hb).
      unfold binKm. rewrite hd. reflexivity. }
    split.
    + rewrite bin. now rewrite (proj2 (Qeq_bool_iff d d) (Qeq_refl d)).
    + intros d' hne. rewrite bin.
      destruct (Qeq_bool d d') eqn:hq; [ | ring ].
      apply Qeq_bool_iff in hq. exfalso. apply hne. now symmetry.
Qed.

Lemma lengthInViewKm_total_and_tolerant_witness :
  (exists total' : Q,
      fst (callLengthInViewKm clipToBox Samples.length
             Samples.stringToNumber
             (Some (FC (Some ([Some Samples.main150]
                              ++ Some crossing :: [Some Samples.main150]))))
             Samples.view (Some []))
      = Some total' /\
      (total' == 6)%Q) /\
  (exists m2 : Map,
      snd (callLengthInViewKm clipToBox Samples.length
             Samples.stringToNumber
             (Some (FC (Some ([Some Samples.main150]
                              ++ Some crossing :: [Some Samples.main150]))))
             Samples.view (Some []))
      = Some m2 /\
      (binOf m2 100 == 4)%Q /\ (binOf m2 150 == 2)%Q).
Proof.
  split.
  - edestruct (proj1 (proj2 (proj2 (proj2 (proj2
                 (lengthInViewKm_total_and_tolerant clipToBox Samples.length
                    Samples.stringToNumber Samples.view (Some []))))))
                 [Some Samples.main150] [Some Samples.main150] crossing
                 [[(8, 0); (12, 0)]; [(0, 8); (0, 15)]]%Q [(3, 3)]%Q
                 [[(0, 0); (5, 0)]]%Q)
      as (total' & e & h).
    + reflexivity.
    + repeat constructor.
    + reflexivity.
    + reflexivity.
    + exists total'. split; [ exact e | ]. rewrite h. vm_compute.
      reflexivity.
  - edestruct (proj2 (proj2 (proj2 (proj2 (proj2
                 (lengthInViewKm_total_and_tolerant clipToBox Samples.length
                    Samples.stringToNumber Samples.view None)))))
                 [Some Samples.main150] [Some Samples.main150] crossing
                 [[(8, 0); (12, 0)]; [(0, 8); (0, 15)]]%Q [(3, 3)]%Q
                 [[(0, 0); (5, 0)]]%Q)
      as (m2 & e & h100 & hrest).
    + reflexivity.
    + repeat constructor.
    + reflexivity.
    + reflexivity.
    + reflexivity.
    + exists m2. split; [ exact e | ]. split.
      * rewrite h100. vm_compute. reflexivity.
      * rewrite (hrest 150%Q); [ vm_compute; reflexivity | ].
        vm_compute. discriminate.
Defined.

(** ** Filters *)

Lemma date_is_not_string (ftype : string) :
  test_i "esriFieldTypeDate" ftype = true ->
  test_i "esriFieldTypeString" ftype = false.
Proof.
  unfold test_i. intro h. apply String.eqb_eq in h. rewrite h. reflexivity.
Qed.

Lemma falsy_nonempty (s : string) : s <> EmptyString -> falsy (Some s) = false.
Proof. destruct s; [ congruence | reflexivity ]. Qed.

Lemma registered (key : string) :
  In key layerRegistry -> existsb (String.eqb key) layerRegistry = true.
Proof.
  intro h. apply existsb_exists. exists key. split; [ exact h | ].
  apply String.eqb_refl.
Qed.

(** C8, as the code has it.  A diameter threshold that is not a finite
    number is refused: the handler alerts and asks nothing of the layer.
    A date value that does not parse is not refused: the attribute filter
    builds the clause [field op NULL], sets it on the layer and reports it
    as applied. *)
Theorem malformed_filter_input
    (StringToNumber : string -> number) (NumberToString : number -> string)
    (Date_parse : string -> number) :
  (forall diamMin : string,
      isFinite (StringToNumber diamMin) = false ->
      applyDiameterFilter StringToNumber NumberToString diamMin
      = [Alert "Enter a non-negative diameter in mm (e.g., 150)."] /\
      existsb isSetWhere
        (applyDiameterFilter StringToNumber NumberToString diamMin)
      = false) /\
  (forall key field ftype op value : string,
      In key layerRegistry ->
      field <> EmptyString -> op <> EmptyString -> value <> EmptyString ->
      test_i "esriFieldTypeDate" ftype = true ->
      isFinite (Date_parse value) = false ->
      apply NumberToString Date_parse key (Some (field, ftype)) op value
      = [SetWhere key (field ++ " " ++ op ++ " NULL");
         Hint ("Applied: " ++ field ++ " " ++ op ++ " NULL")]).
Proof.
  split.
  - intros diamMin h. unfold applyDiameterFilter. rewrite h. split; reflexivity.
  - intros key field ftype op value hkey hf ho hv hdate hbad.
    unfold apply. rewrite (registered key hkey). cbn [negb option_map fst].
    unfold buildWhere.
    rewrite (falsy_nonempty field hf), (falsy_nonempty op ho). cbn [orb].
    destruct value as [ | c value]; [ congruence | ].
    rewrite (date_is_not_string ftype hdate), hdate, hbad. reflexivity.
Qed.

Lemma malformed_filter_input_witness :
  apply Samples.numberToString Samples.dateParse "waterMains"
    (Some ("installdate", "esriFieldTypeDate")%string) ">=" "yesterday"
  = [SetWhere "waterMains" ("installdate" ++ " " ++ ">=" ++ " NULL");
     Hint ("Applied: " ++ "installdate" ++ " " ++ ">=" ++ " NULL")].
Proof.
  apply (proj2 (malformed_filter_input Samples.stringToNumber
                  Samples.numberToString Samples.dateParse));
    try discriminate; try reflexivity.
  simpl; tauto.
Defined.

(** C8 as stated fails.  The date text does not parse, and the attribute
    filter still asks the layer for the clause it built. *)
Lemma unparseable_date_is_queried :
  isFinite (Samples.dateParse "yesterday") = false /\
  existsb isSetWhere
    (apply Samples.numberToString Samples.dateParse "waterMains"
       (Some ("installdate", "esriFieldTypeDate")%string) ">=" "yesterday")
  = true /\
  apply Samples.numberToString Samples.dateParse "waterMains"
    (Some ("installdate", "esriFieldTypeDate")%string) ">=" "yesterday"
  = [SetWhere "waterMains" "installdate >= NULL";
     Hint "Applied: installdate >= NULL"].
Proof. repeat split. Qed.

(** ** The debounce *)

Section Debounce.
Local Open Scope Z_scope.

Lemma trigger_from_idle (s : page) (t : Z) :
  idle s -> now s <= t -> armed t (runs s) (trigger s t).
Proof.
  destruct s as [n next tm held rs]. unfold idle. cbn [timers nextTimer now runs].
  intros [-> hpos] hle.
  exists next. unfold trigger, elapse, scheduleAnalytics.
  cbn [timers nextTimer now runs analyticsTimer filter fold_right map].
  rewrite app_nil_r.
  assert (hmax : Z.max n t = t) by lia.
  destruct held as [id | ]; [ destruct (id =? 0) | ];
    cbn; rewrite hmax; repeat split; lia.
Qed.

Lemma trigger_rearms (s : page) (t t' : Z) (r : list Z) :
  armed t r s -> t <= t' < t + 350 -> armed t' r (trigger s t').
Proof.
  destruct s as [n next tm held rs].
  intros (id & htm & hheld & hid & hpos & hr & hnow) hgap.
  cbn [timers nextTimer now runs analyticsTimer] in *. subst tm held rs n.
  exists next. unfold trigger, elapse, scheduleAnalytics.
  cbn [timers nextTimer now runs analyticsTimer filter snd].
  assert (hlate : (t + 350 <=? t') = false) by (apply Z.leb_gt; lia).
  rewrite hlate. cbn [negb fold_right map].
  assert (hne : (id =? 0) = false) by (apply Z.eqb_neq; exact hid).
  rewrite hne. unfold clearTimeout, setTimeout.
  cbn [timers nextTimer now runs analyticsTimer filter fst].
  rewrite Z.eqb_refl. cbn [negb List.app].
  rewrite app_nil_r.
  assert (hmax : Z.max t t' = t') by lia. rewrite hmax.
  repeat split; lia.
Qed.

Lemma last_cons {A : Type} (l : list A) :
  forall x d : A, last (x :: l) d = last l x.
Proof.
  induction l as [ | y l ih]; intros x d; [ reflexivity | ].
  change (last (x :: y :: l) d) with (last (y :: l) d).
  now rewrite !ih.
Qed.

Lemma play_burst (events : list Z) :
  forall (s : page) (t : Z) (r : list Z),
    armed t r s -> burst t events -> armed (last events t) r (play events s).
Proof.
  induction events as [ | t' events ih]; intros s t r harmed hburst.
  - exact harmed.
  - destruct hburst as [hgap hburst].
    change (play (t' :: events) s) with (play events (trigger s t')).
    rewrite last_cons.
    apply (ih _ t'); [ | exact hburst ].
    apply (trigger_rearms s t t' r harmed hgap).
Qed.

Lemma armed_fires (s : page) (t T : Z) (r : list Z) :
  armed t r s -> t + 350 <= T ->
  runs (elapse T s) = r ++ [t + 350] /\ timers (elapse T s) = [].
Proof.
  intros (id & htm & _ & _ & _ & hr & _) hT.
  unfold elapse. cbn [runs timers]. rewrite htm, hr.
  cbn [filter snd].
  assert (hdue : (t + 350 <=? T) = true) by (apply Z.leb_le; exact hT).
  rewrite hdue. split; reflexivity.
Qed.

Lemma armed_waits (s : page) (t T : Z) (r : list Z) :
  armed t r s -> T < t + 350 -> runs (elapse T s) = r.
Proof.
  intros (id & htm & _ & _ & _ & hr & _) hT.
  unfold elapse. cbn [runs]. rewrite htm, hr.
  cbn [filter snd].
  assert (hdue : (t + 350 <=? T) = false) by (apply Z.leb_gt; exact hT).
  rewrite hdue. cbn [fold_right map]. apply app_nil_r.
Qed.

End Debounce.

(** C9.  Starting with no scheduled run outstanding, a first trigger at
    time [t] followed by triggers that each come less than 350 ms after the
    one before cause exactly one run of the analytics, 350 ms after the last
    trigger: until then no run has started, from then on that one has, and
    no timer is left. *)
Theorem burst_runs_once (s : page) (t : Z) (events : list Z) :
  idle s -> (now s <= t)%Z -> burst t events ->
  (forall T : Z,
      (T < last events t + 350)%Z ->
      runs (elapse T (play (t :: events) s)) = runs s) /\
  (forall T : Z,
      (last events t + 350 <= T)%Z ->
      runs (elapse T (play (t :: events) s))
      = runs s ++ [(last events t + 350)%Z] /\
      timers (elapse T (play (t :: events) s)) = []).
Proof.
  intros hidle hnow hburst.
  assert (harmed : armed (last events t) (runs s) (play (t :: events) s)).
  { change (play (t :: events) s) with (play events (trigger s t)).
    apply (play_burst events _ t); [ | exact hburst ].
    apply trigger_from_idle; assumption. }
  split; intros T hT.
  - apply (armed_waits _ _ _ _ harmed hT).
  - apply (armed_fires _ _ _ _ harmed hT).
Qed.

Lemma burst_runs_once_witness :
  (forall T : Z,
      (T < last [100; 200; 549] 0 + 350)%Z ->
      runs (elapse T (play (0 :: [100; 200; 549]) initialPage))%Z
      = runs initialPage) /\
  (forall T : Z,
      (last [100; 200; 549] 0 + 350 <= T)%Z ->
      runs (elapse T (play (0 :: [100; 200; 549]) initialPage))%Z
      = runs initialPage ++ [(last [100; 200; 549] 0 + 350)%Z] /\
      timers (elapse T (play (0 :: [100; 200; 549]) initialPage))%Z = []).
Proof.
  apply (burst_runs_once initialPage 0 [100; 200; 549]%Z).
  - split; [ reflexivity | simpl; lia ].
  - simpl; lia.
  - simpl; lia.
Defined.

End AppFacts.

(** * The scorer on binary64 at the sample points *)

Module Float64Facts.
Import Floats Float64.
Local Open Scope float_scope.
Local Set Warnings "-inexact-float".

(** No network in range and no pipe: 0; both networks at distance 0 and
    dense pipe: exactly 1, the weights 0.4 + 0.4 + 0.2 adding up without
    rounding error. *)
Example f64_extremes :
  readinessScore infinity infinity 0 = 0 /\
  readinessScore 0 0 1.5 = 1 /\
  readinessScore 0 0 40 = 1.
Proof. repeat split. Qed.

(** The end-to-end example: about 0.667 with the full kilometre the code
    measures, about 0.613 had the length been the 0.8 km inside the
    buffer. *)
Example f64_end_to_end :
  between 0.6666 0.6667 (readinessScore 0.2 infinity 1) = true /\
  between 0.6133 0.6134 (readinessScore 0.2 infinity 0.8) = true.
Proof. split; reflexivity. Qed.

End Float64Facts.

(** * More properties of gis_analysis.js *)

Module GisExtra.
Import JS GeoJSON Gis GisDisplay GisFacts.
Local Open Scope Q_scope.
#[local] Existing Instance FlatTurf.flat.

(** ** The nearest line *)

Section Nearest.
Context {turf : Turf}.
Variable point : feature.

Local Abbreviation dist := (turf_pointToLineDistance point).
Local Abbreviation step :=
  (fun (min : distance) (f : feature) =>
     if lt_distance (dist f) min then Finite (dist f) else min).

Lemma lt_distance_true (d : Q) (m : distance) :
  lt_distance d m = true ->
  forall a : Q, m = Finite a -> d < a.
Proof.
  intros h a ->. simpl in h.
  destruct (Qlt_le_dec d a); [ assumption | discriminate ].
Qed.

Lemma lt_distance_false (d : Q) (m : distance) :
  lt_distance d m = false -> exists a : Q, m = Finite a /\ a <= d.
Proof.
  destruct m as [a | ]; simpl; [ | discriminate ].
  destruct (Qlt_le_dec d a); [ discriminate | ]. intros _. eauto.
Qed.

Lemma nearest_fold (fs : list feature) :
  forall acc : distance,
    (fold_left step fs acc = acc \/
     exists f : feature, In f fs /\ fold_left step fs acc = Finite (dist f)) /\
    (forall m : Q,
        fold_left step fs acc = Finite m ->
        (forall g : feature, In g fs -> m <= dist g) /\
        (forall a : Q, acc = Finite a -> m <= a)) /\
    (fold_left step fs acc = Infinity -> acc = Infinity /\ fs = []).
Proof.
  induction fs as [ | f fs ih]; intro acc.
  - simpl. split; [ now left | split ].
    + intros m e. split; [ intros g [] | ].
      intros a e'. rewrite e' in e. injection e as <-. apply Qle_refl.
    + intro e. now split.
  - cbn [fold_left].
    destruct (ih (if lt_distance (dist f) acc then Finite (dist f) else acc))
      as (hsrc & hlow & hinf).
    destruct (lt_distance (dist f) acc) eqn:hlt.
    + split; [ | split ].
      * right. destruct hsrc as [e | (g & hg & e)].
        -- exists f. split; [ now left | exact e ].
        -- exists g. split; [ now right | exact e ].
      * intros m e. destruct (hlow m e) as [hfs hacc]. split.
        -- intros g [<- | hg]; [ apply (hacc (dist f) eq_refl) | now apply hfs ].
        -- intros a e'. apply Qle_trans with (dist f).
           ++ apply (hacc (dist f) eq_refl).
           ++ apply Qlt_le_weak, (lt_distance_true _ _ hlt a e').
      * intro e. destruct (hinf e) as [e' _]. discriminate e'.
    + destruct (lt_distance_false _ _ hlt) as (a & -> & hle).
      split; [ | split ].
      * destruct hsrc as [e | (g & hg & e)].
        -- now left.
        -- right. exists g. split; [ now right | exact e ].
      * intros m e. destruct (hlow m e) as [hfs hacc]. split.
        -- intros g [<- | hg]; [ | now apply hfs ].
           apply Qle_trans with a; [ apply (hacc a eq_refl) | exact hle ].
        -- intros a' e'. injection e' as <-. apply (hacc a eq_refl).
      * intro e. destruct (hinf e) as [e' _]. discriminate e'.
Qed.

Lemma nearest_unfold (lineFC : option (FeatureCollection feature)) :
  nearestLineDistanceKm_local point lineFC
  = fold_left step (featuresOf lineFC) Infinity.
Proof.
  unfold nearestLineDistanceKm_local.
  destruct (noFeatures lineFC) eqn:e; [ | reflexivity ].
  now rewrite (noFeatures_featuresOf _ e).
Qed.

End Nearest.

(** X1.  [nearestLineDistanceKm_local] is [Infinity] exactly when the
    collection has no features; otherwise it is the distance to one of the
    features, and no feature is nearer. *)
Theorem nearestLineDistanceKm_local_is_minimum {turf : Turf}
    (point : feature) (lineFC : option (FeatureCollection feature)) :
  (nearestLineDistanceKm_local point lineFC = Infinity <->
   featuresOf lineFC = []) /\
  (forall m : Q,
      nearestLineDistanceKm_local point lineFC = Finite m ->
      (exists f : feature,
          In f (featuresOf lineFC) /\
          m = turf_pointToLineDistance point f) /\
      (forall g : feature,
          In g (featuresOf lineFC) -> m <= turf_pointToLineDistance point g)).
Proof.
  rewrite nearest_unfold.
  destruct (nearest_fold point (featuresOf lineFC) Infinity)
    as (hsrc & hlow & hinf).
  split; [ split | ].
  - intro e. apply (hinf e).
  - intros ->. reflexivity.
  - intros m e. split.
    + destruct hsrc as [e' | (f & hf & e')].
      * rewrite e in e'. discriminate e'.
      * exists f. split; [ exact hf | ]. rewrite e in e'. now injection e'.
    + apply (hlow m e).
Qed.

(** ** The local pipe length *)

Section PipeLength.
Context {turf : Turf}.
Variable buf : feature.

Local Abbreviation count :=
  (fun (total : Q) (f : feature) =>
     if isLineString f && turf_booleanIntersects buf f
     then total + turf_length f
     else total).

Lemma add_featuresOf (total : Q) (fc : option (FeatureCollection feature)) :
  add buf total fc = fold_left count (featuresOf fc) total.
Proof. destruct fc as [[[fs | ]] | ]; reflexivity. Qed.

Lemma count_from (fs : list feature) :
  forall total : Q,
    fold_left count fs total == total + fold_left count fs 0.
Proof.
  induction fs as [ | f fs ih]; intro total; cbn [fold_left].
  - ring.
  - rewrite (ih (count total f)), (ih (count 0 f)).
    destruct (isLineString f && turf_booleanIntersects buf f); ring.
Qed.

Lemma count_nonneg (fs : list feature) :
  (forall f : feature, In f fs -> 0 <= turf_length f) ->
  forall total : Q, 0 <= total -> 0 <= fold_left count fs total.
Proof.
  induction fs as [ | f fs ih]; intros hlen total htotal; cbn [fold_left].
  - exact htotal.
  - apply ih.
    + intros g hg. apply hlen. now right.
    + pose proof (hlen f (or_introl eq_refl)) as hf.
      destruct (isLineString f && turf_booleanIntersects buf f); lra.
Qed.

(** Features the loop passes over can be left out beforehand. *)
Lemma count_filter (keep : feature -> bool) (fs : list feature) :
  (forall f : feature,
      In f fs -> keep f = false ->
      isLineString f && turf_booleanIntersects buf f = false) ->
  forall total : Q,
    fold_left count (filter keep fs) total = fold_left count fs total.
Proof.
  induction fs as [ | f fs ih]; intros hskip total; [ reflexivity | ].
  cbn [filter fold_left].
  destruct (keep f) eqn:hk; cbn [fold_left].
  - apply ih. intros g hg. apply hskip. now right.
  - rewrite (hskip f (or_introl eq_refl) hk).
    apply ih. intros g hg. apply hskip. now right.
Qed.

End PipeLength.

(** X2.  The two networks contribute to the local pipe length separately
    and in either order: the length for (water, sewer) is the length for
    water alone plus the length for sewer alone, and swapping the two
    collections does not change it.  Nothing is deduplicated: a collection
    passed as both is counted twice. *)
Theorem sumLengthWithinBufferKm_local_splits {turf : Turf}
    (poly : feature) (waterFC sewerFC : option (FeatureCollection feature))
    (bufferKm : Q) :
  sumLengthWithinBufferKm_local poly waterFC sewerFC bufferKm
  == sumLengthWithinBufferKm_local poly waterFC None bufferKm
     + sumLengthWithinBufferKm_local poly sewerFC None bufferKm /\
  sumLengthWithinBufferKm_local poly waterFC sewerFC bufferKm
  == sumLengthWithinBufferKm_local poly sewerFC waterFC bufferKm /\
  sumLengthWithinBufferKm_local poly waterFC waterFC bufferKm
  == 2 * sumLengthWithinBufferKm_local poly waterFC None bufferKm.
Proof.
  unfold sumLengthWithinBufferKm_local. cbv zeta.
  rewrite !add_featuresOf. cbn [featuresOf fold_left].
  pose proof (count_from (turf_buffer poly bufferKm) (featuresOf sewerFC)
                (fold_left
                   (fun total f =>
                      if isLineString f
                         && turf_booleanIntersects
                              (turf_buffer poly bufferKm) f
                      then total + turf_length f
                      else total)
                   (featuresOf waterFC) 0)) as hws.
  pose proof (count_from (turf_buffer poly bufferKm) (featuresOf waterFC)
                (fold_left
                   (fun total f =>
                      if isLineString f
                         && turf_booleanIntersects
                              (turf_buffer poly bufferKm) f
                      then total + turf_length f
                      else total)
                   (featuresOf sewerFC) 0)) as hsw.
  pose proof (count_from (turf_buffer poly bufferKm) (featuresOf waterFC)
                (fold_left
                   (fun total f =>
                      if isLineString f
                         && turf_booleanIntersects
                              (turf_buffer poly bufferKm) f
                      then total + turf_length f
                      else total)
                   (featuresOf waterFC) 0)) as hww.
  cbv beta in hws, hsw, hww.
  repeat split; lra.
Qed.

(** X3.  The 2 km pre-filter of [main] loses no pipe length: when every
    feature that meets the buffer of the area also meets the buffered
    bounding box used by [linesNearPolygon], the local pipe length of the
    pre-filtered collections is that of the collections themselves. *)
Theorem prefilter_keeps_pipe_length {turf : Turf}
    (area : feature) (waterFC sewerFC : option (FeatureCollection feature))
    (radiusKm bufferKm : Q) :
  (forall f : feature,
      In f (featuresOf waterFC ++ featuresOf sewerFC) ->
      turf_booleanIntersects (turf_buffer area bufferKm) f = true ->
      turf_booleanIntersects (footprint area radiusKm) f = true) ->
  sumLengthWithinBufferKm_local area
    (Some (linesNearPolygon area waterFC radiusKm))
    (Some (linesNearPolygon area sewerFC radiusKm)) bufferKm
  = sumLengthWithinBufferKm_local area waterFC sewerFC bufferKm.
Proof.
  intro inside.
  assert (skip : forall f : feature,
    In f (featuresOf waterFC ++ featuresOf sewerFC) ->
    isLineString f && turf_booleanIntersects (footprint area radiusKm) f
    = false ->
    isLineString f && turf_booleanIntersects (turf_buffer area bufferKm) f
    = false).
  { intros f hf hk. destruct (isLineString f); [ | reflexivity ].
    cbn [andb] in *.
    destruct (turf_booleanIntersects (turf_buffer area bufferKm) f) eqn:e;
      [ | reflexivity ].
    rewrite (inside f hf e) in hk. discriminate hk. }
  unfold sumLengthWithinBufferKm_local. cbv zeta.
  rewrite !add_featuresOf, !linesNearPolygon_filter. cbn [featuresOf].
  rewrite (count_filter _ _ (featuresOf waterFC)).
  - apply count_filter. intros f hf. apply skip, in_or_app. now right.
  - intros f hf. apply skip, in_or_app. now left.
Qed.

Lemma prefilter_keeps_pipe_length_witness :
  sumLengthWithinBufferKm_local FlatTurf.area
    (Some (linesNearPolygon FlatTurf.area
             (Some (FC (Some [FlatTurf.pipe; FlatTurf.farPipe]))) 2))
    (Some (linesNearPolygon FlatTurf.area
             (Some (FC (Some [FlatTurf.multiPipe]))) 2)) 0.25
  = sumLengthWithinBufferKm_local FlatTurf.area
      (Some (FC (Some [FlatTurf.pipe; FlatTurf.farPipe])))
      (Some (FC (Some [FlatTurf.multiPipe]))) 0.25.
Proof.
  apply (@prefilter_keeps_pipe_length FlatTurf.flat).
  intros f [<- | [<- | [<- | []]]]; vm_compute; intro h;
    (reflexivity || discriminate h).
Defined.

(** ** Filtering twice *)

Lemma filter_narrow {A : Type} (p q : A -> bool) (l : list A) :
  (forall x : A, In x l -> p x = true -> q x = true) ->
  filter p (filter q l) = filter p l.
Proof.
  induction l as [ | x l ih]; intro h; [ reflexivity | ].
  cbn [filter].
  assert (ih' : filter p (filter q l) = filter p l)
    by (apply ih; intros y hy; apply h; now right).
  destruct (q x) eqn:hq; cbn [filter].
  - now rewrite ih'.
  - destruct (p x) eqn:hp; [ | exact ih' ].
    rewrite (h x (or_introl eq_refl) hp) in hq. discriminate hq.
Qed.

(** X4.  Filtering to a radius what was already filtered to a radius whose
    footprint contains the first gives the same as filtering to the first
    radius directly; in particular filtering twice to the same radius
    changes nothing. *)
Theorem linesNearPolygon_narrows {turf : Turf}
    (poly : feature) (lineFC : option (FeatureCollection feature))
    (r1 r2 : Q) :
  (forall f : feature,
      In f (featuresOf lineFC) ->
      turf_booleanIntersects (footprint poly r1) f = true ->
      turf_booleanIntersects (footprint poly r2) f = true) ->
  linesNearPolygon poly (Some (linesNearPolygon poly lineFC r2)) r1
  = linesNearPolygon poly lineFC r1 /\
  linesNearPolygon poly (Some (linesNearPolygon poly lineFC r1)) r1
  = linesNearPolygon poly lineFC r1.
Proof.
  intro grow. rewrite !linesNearPolygon_filter. cbn [featuresOf].
  split; f_equal; f_equal; apply filter_narrow.
  - intros f hf hp. apply andb_true_iff in hp. destruct hp as [hl hx].
    rewrite hl. cbn [andb]. now apply grow.
  - intros f _ hp. exact hp.
Qed.

Lemma linesNearPolygon_narrows_witness :
  linesNearPolygon FlatTurf.area
    (Some (linesNearPolygon FlatTurf.area
             (Some (FC (Some [FlatTurf.pipe; FlatTurf.farPipe]))) 3)) 2
  = linesNearPolygon FlatTurf.area
      (Some (FC (Some [FlatTurf.pipe; FlatTurf.farPipe]))) 2 /\
  linesNearPolygon FlatTurf.area
    (Some (linesNearPolygon FlatTurf.area
             (Some (FC (Some [FlatTurf.pipe; FlatTurf.farPipe]))) 2)) 2
  = linesNearPolygon FlatTurf.area
      (Some (FC (Some [FlatTurf.pipe; FlatTurf.farPipe]))) 2.
Proof.
  apply (@linesNearPolygon_narrows FlatTurf.flat).
  intros f [<- | [<- | []]] _; vm_compute; reflexivity.
Defined.

(** ** How the score moves *)

Lemma capped_monotone (x y c : Q) :
  0 < c -> x <= y -> Qmin (x / c) 1 <= Qmin (y / c) 1.
Proof.
  intros hc hxy. apply Q.min_le_compat_r.
  unfold Qdiv. apply Qmult_le_compat_r; [ exact hxy | ].
  apply Qlt_le_weak, Qinv_lt_0_compat, hc.
Qed.

(** Inside the 600 m cap the index is [1 - d/0.6], and it is not zero. *)
Lemma toIdx_in_range (d : Q) :
  d < 0.6 -> toIdx (Finite d) == 1 - d / 0.6 /\ d / 0.6 < 1.
Proof.
  intro h.
  assert (hq : d / 0.6 < 1)
    by (apply Qlt_shift_div_r; [ reflexivity | lra ]).
  split; [ | exact hq ].
  simpl. unfold Math_min. rewrite Q.min_l; [ reflexivity | lra ].
Qed.

Lemma quotient_monotone (x y : Q) : x <= y -> x / 0.6 <= y / 0.6.
Proof.
  intro h. unfold Qdiv. apply Qmult_le_compat_r; [ exact h | ].
  apply Qlt_le_weak, Qinv_lt_0_compat. reflexivity.
Qed.

Ltac by_weights w s :=
  destruct (weights_cases (toIdx w) (toIdx s))
    as [(? & ? & ?) | [(? & ? & ?) | [(? & ? & ?) | (? & ? & ?)]]].

Ltac name_indices :=
  repeat match goal with
         | |- context [toIdx ?d] =>
             let a := fresh "i" in set (a := toIdx d) in *
         | |- context [Qmin ?x 1] =>
             let a := fresh "d" in set (a := Qmin x 1) in *
         end.

Ltac settle :=
  first [ lra
        | exfalso;
          match goal with
          | h : ~ _ == 0 |- _ => apply h; lra
          end ].

(** The bounds of the score, for use where the analysis is composed. *)
Lemma score_bounds (w s : distance) (len : Q) :
  nonNegative w -> nonNegative s -> 0 <= len ->
  0 <= readinessScore w s len <= 1.
Proof.
  intros hw hs hl. unfold readinessScore, Math_min.
  pose proof (toIdx_bounds w hw) as bw.
  pose proof (toIdx_bounds s hs) as bs.
  assert (bd : 0 <= Qmin (len / 1.5) 1 <= 1)
    by (apply capped_bounds; [ reflexivity | exact hl ]).
  by_weights w s;
    match goal with e : weights _ _ = _ |- _ => rewrite e end;
    cbv beta iota; name_indices; lra.
Qed.

(** X5.  More local pipe never lowers the score: for any two distances the
    score is non-decreasing in the pipe length. *)
Theorem readinessScore_monotone_in_length (w s : distance) (l1 l2 : Q) :
  l1 <= l2 -> readinessScore w s l1 <= readinessScore w s l2.
Proof.
  intro h. unfold readinessScore, Math_min.
  assert (hd : Qmin (l1 / 1.5) 1 <= Qmin (l2 / 1.5) 1)
    by (apply capped_monotone; [ reflexivity | exact h ]).
  by_weights w s;
    match goal with e : weights _ _ = _ |- _ => rewrite e end;
    cbv beta iota; name_indices; lra.
Qed.

Lemma readinessScore_monotone_in_length_witness :
  readinessScore (Finite 0.3) Infinity 0.2
  <= readinessScore (Finite 0.3) Infinity 0.9.
Proof.
  apply readinessScore_monotone_in_length. unfold Qle; simpl; lia.
Defined.

(** X6.  While a network stays within 600 m, bringing it nearer never
    lowers the score, whatever the other distance and the pipe length. *)
Theorem readinessScore_monotone_within_range (w1 w2 : Q) (other : distance)
    (len : Q) :
  w1 <= w2 -> w2 < 0.6 ->
  readinessScore (Finite w2) other len <= readinessScore (Finite w1) other len
  /\
  readinessScore other (Finite w2) len <= readinessScore other (Finite w1) len.
Proof.
  intros h12 h2.
  destruct (toIdx_in_range w1) as [e1 q1]; [ lra | ].
  destruct (toIdx_in_range w2) as [e2 q2]; [ exact h2 | ].
  pose proof (quotient_monotone w1 w2 h12) as hq.
  unfold readinessScore, Math_min. split.
  - by_weights (Finite w1) other; by_weights (Finite w2) other;
      repeat match goal with e : weights _ _ = _ |- _ => rewrite e; clear e end;
      cbv beta iota; name_indices; settle.
  - by_weights other (Finite w1); by_weights other (Finite w2);
      repeat match goal with e : weights _ _ = _ |- _ => rewrite e; clear e end;
      cbv beta iota; name_indices; settle.
Qed.

Lemma readinessScore_monotone_within_range_witness :
  readinessScore (Finite 0.5) (Finite 0.1) 1
  <= readinessScore (Finite 0.2) (Finite 0.1) 1 /\
  readinessScore (Finite 0.1) (Finite 0.5) 1
  <= readinessScore (Finite 0.1) (Finite 0.2) 1.
Proof.
  apply readinessScore_monotone_within_range; unfold Qle, Qlt; simpl; lia.
Defined.

(** X7.  Across the 600 m cap the score can rise as a network moves away:
    with both networks in range, replacing the water distance by one out of
    range raises the score whenever the sewer index plus the density index
    exceeds twice the water index, because the weights change from
    (0.4, 0.4, 0.2) to (0, 0.6, 0.4). *)
Theorem readinessScore_rises_when_water_drops_out
    (w wOut s : distance) (len : Q) :
  ~ toIdx w == 0 -> ~ toIdx s == 0 -> toIdx wOut == 0 ->
  2 * toIdx w < toIdx s + Math_min (len / 1.5) 1 ->
  readinessScore w s len < readinessScore wOut s len.
Proof.
  intros hw hs hout hgain. unfold readinessScore, Math_min in *.
  by_weights w s; by_weights wOut s;
    repeat match goal with e : weights _ _ = _ |- _ => rewrite e; clear e end;
    cbv beta iota; name_indices;
    first [ lra | exfalso; (apply hw; lra) || (apply hs; lra)
                           || (match goal with
                               | h : ~ _ == 0 |- _ => apply h; lra
                               end) ].
Qed.

Lemma readinessScore_rises_when_water_drops_out_witness :
  readinessScore (Finite 0.5) (Finite 0) 1.5
  < readinessScore (Finite 0.6) (Finite 0) 1.5.
Proof.
  apply readinessScore_rises_when_water_drops_out;
    vm_compute; (reflexivity || discriminate).
Defined.

(** ** The whole analysis of an area *)

(** X8.  When turf reports no negative distance and no negative length for
    the features of the two networks, the readiness [main] attaches to an
    area lies between 0 and 1. *)
Theorem analyseArea_readiness_in_unit_interval {turf : Turf}
    (area : feature) (water wastewater : FeatureCollection feature) :
  (forall f : feature,
      In f (featuresOf (Some water) ++ featuresOf (Some wastewater)) ->
      0 <= turf_pointToLineDistance (turf_centroid area) f /\
      0 <= turf_length f) ->
  0 <= readiness (analyseArea area water wastewater) <= 1.
Proof.
  intro sane.
  assert (near : forall (fc : FeatureCollection feature) (f : feature),
    In f (featuresOf (Some (linesNearPolygon area (Some fc) 2))) ->
    In f (featuresOf (Some fc))).
  { intros fc f. rewrite linesNearPolygon_filter. cbn [featuresOf].
    intro h. apply filter_In in h. exact (proj1 h). }
  assert (dist : forall fc : FeatureCollection feature,
    (forall f, In f (featuresOf (Some fc)) ->
       0 <= turf_pointToLineDistance (turf_centroid area) f) ->
    nonNegative
      (nearestLineDistanceKm_local (turf_centroid area)
         (Some (linesNearPolygon area (Some fc) 2)))).
  { intros fc hfc. rewrite nearest_unfold.
    destruct (nearest_fold (turf_centroid area)
                (featuresOf (Some (linesNearPolygon area (Some fc) 2)))
                Infinity) as ([e | (f & hf & e)] & _ & _); rewrite e.
    - exact I.
    - apply hfc, near, hf. }
  unfold analyseArea. cbn [readiness]. apply score_bounds.
  - apply dist. intros f hf. apply sane, in_or_app. now left.
  - apply dist. intros f hf. apply sane, in_or_app. now right.
  - unfold sumLengthWithinBufferKm_local. cbv zeta.
    rewrite !add_featuresOf.
    apply count_nonneg.
    + intros f hf. apply sane, in_or_app. right. apply near, hf.
    + apply count_nonneg; [ | apply Qle_refl ].
      intros f hf. apply sane, in_or_app. left. apply near, hf.
Qed.

Lemma analyseArea_readiness_in_unit_interval_witness :
  0 <= readiness
         (analyseArea FlatTurf.area
            (FC (Some [FlatTurf.pipe; FlatTurf.farPipe]))
            (FC (Some [FlatTurf.multiPipe])))
  <= 1.
Proof.
  apply (@analyseArea_readiness_in_unit_interval FlatTurf.flat).
  intros f [<- | [<- | [<- | []]]]; split; vm_compute; discriminate.
Defined.

(** ** Colours *)

Lemma quotient_06 (x : Q) : x / 0.6 == (5 # 3) * x.
Proof. field. Qed.

Lemma quotient_15 (x : Q) : x / 1.5 == (2 # 3) * x.
Proof. field. Qed.

Lemma toIdx_out_of_range (d : distance) : outOfRange d -> toIdx d == 0.
Proof.
  destruct d as [q | ]; simpl; intro h; [ | reflexivity ].
  unfold Math_min. rewrite Q.min_r; [ ring | ].
  rewrite quotient_06. lra.
Qed.

(** X9.  An area whose distances to the water and the sewer network add up
    to at most 150 m is drawn green, whatever its local pipe length. *)
Theorem green_when_both_networks_close (w s len : Q) :
  0 <= w -> 0 <= s -> w + s <= 0.15 -> 0 <= len ->
  colorByReadiness (readinessScore (Finite w) (Finite s) len)
  = "#22c55e"%string.
Proof.
  intros hw hs hsum hl.
  destruct (toIdx_in_range w) as [ew qw]; [ lra | ].
  destruct (toIdx_in_range s) as [es qs]; [ lra | ].
  assert (bd : 0 <= Qmin (len / 1.5) 1 <= 1)
    by (apply capped_bounds; [ reflexivity | exact hl ]).
  rewrite quotient_06 in ew, es, qw, qs.
  assert (hscore : 0.7 <= readinessScore (Finite w) (Finite s) len).
  { unfold readinessScore, Math_min.
    by_weights (Finite w) (Finite s);
      match goal with e : weights _ _ = _ |- _ => rewrite e end;
      cbv beta iota; name_indices; lra. }
  unfold colorByReadiness.
  apply Qle_bool_iff in hscore. now rewrite hscore.
Qed.

Lemma green_when_both_networks_close_witness :
  colorByReadiness (readinessScore (Finite 0.1) (Finite 0.05) 0)
  = "#22c55e"%string.
Proof.
  apply green_when_both_networks_close; unfold Qle; simpl; lia.
Defined.

(** X10.  An area with neither network within 600 m and less than 600 m of
    local pipe is drawn red. *)
Theorem red_when_unserved_and_sparse (w s : distance) (len : Q) :
  outOfRange w -> outOfRange s -> len < 0.6 ->
  colorByReadiness (readinessScore w s len) = "#ef4444"%string.
Proof.
  intros hw hs hl.
  pose proof (toIdx_out_of_range w hw) as zw.
  pose proof (toIdx_out_of_range s hs) as zs.
  assert (hd : Qmin (len / 1.5) 1 < 0.4).
  { apply Qle_lt_trans with (len / 1.5); [ apply Q.le_min_l | ].
    rewrite quotient_15. lra. }
  assert (hscore : readinessScore w s len < 0.4).
  { unfold readinessScore, Math_min.
    by_weights w s;
      match goal with e : weights _ _ = _ |- _ => rewrite e end;
      cbv beta iota; name_indices; settle. }
  unfold colorByReadiness.
  destruct (Qle_bool 0.7 (readinessScore w s len)) eqn:e1.
  - apply Qle_bool_iff in e1. lra.
  - destruct (Qle_bool 0.4 (readinessScore w s len)) eqn:e2;
      [ | reflexivity ].
    apply Qle_bool_iff in e2. lra.
Qed.

Lemma red_when_unserved_and_sparse_witness :
  colorByReadiness (readinessScore (Finite 0.9) Infinity 0.5)
  = "#ef4444"%string.
Proof.
  apply red_when_unserved_and_sparse;
    simpl; unfold Qle, Qlt; simpl; (lia || exact I).
Defined.

(** ** Names *)

Lemma firstNamed_skips (NumberToString : number -> string) (o : object)
    (before : list string) (rest : list string) :
  Forall (fun k => truthy (get o k) = false) before ->
  firstNamed NumberToString (Some o) (before ++ rest)
  = firstNamed NumberToString (Some o) rest.
Proof.
  induction 1 as [ | k before hk _ ih]; [ reflexivity | ].
  cbn [List.app firstNamed]. now rewrite hk.
Qed.

Lemma firstNamed_none (NumberToString : number -> string) (ks : list string) :
  firstNamed NumberToString None ks = None.
Proof. induction ks as [ | k ks ih]; [ reflexivity | exact ih ]. Qed.

(** X11.  [displayName] takes the first of its ten keys, in the order
    listed, whose value counts as true, and gives that value as text; with
    no properties, or with none of the keys counting as true, it gives
    "Area" and the index plus one. *)
Theorem displayName_first_true_key (NumberToString : number -> string)
    (idx : Z) :
  (forall (o : object) (before after : list string) (k : string),
      keys = before ++ k :: after ->
      Forall (fun k' => truthy (get o k') = false) before ->
      truthy (get o k) = true ->
      displayName NumberToString (Some o) idx
      = String_ NumberToString (get o k)) /\
  (forall o : object,
      Forall (fun k => truthy (get o k) = false) keys ->
      displayName NumberToString (Some o) idx
      = ("Area " ++ NumberToString (Num (inject_Z (idx + 1))))%string) /\
  displayName NumberToString None idx
  = ("Area " ++ NumberToString (Num (inject_Z (idx + 1))))%string.
Proof.
  split; [ | split ].
  - intros o before after k hkeys hbefore hk.
    unfold displayName. rewrite hkeys.
    rewrite (firstNamed_skips NumberToString o before (k :: after) hbefore).
    cbn [firstNamed]. now rewrite hk.
  - intros o hall. unfold displayName.
    rewrite <- (app_nil_r keys).
    now rewrite (firstNamed_skips NumberToString o keys [] hall).
  - unfold displayName. now rewrite firstNamed_none.
Qed.

Lemma displayName_first_true_key_witness :
  displayName Samples.numberToString
    (Some [("SUBURB", VStr "Elizabeth"); ("name", VStr EmptyString);
           ("NAME", VStr "Playford North")]%string) 4
  = "Playford North"%string.
Proof.
  apply (proj1 (displayName_first_true_key Samples.numberToString 4)
           [("SUBURB", VStr "Elizabeth"); ("name", VStr EmptyString);
            ("NAME", VStr "Playford North")]%string
           ["name"]%string
           ["Label"; "LABEL"; "AREA_NAME"; "REGION"; "SA2_NAME"; "SUBURB";
            "LGA_NAME"; "TITLE"]%string
           "NAME"%string).
  - reflexivity.
  - repeat constructor.
  - reflexivity.
Defined.

(** ** The nearest line after the pre-filter *)

(** X25.  [main] measures the nearest distance on the pre-filtered lines,
    not on the whole network: that distance is never smaller than the
    distance to the whole network, and it is the same whenever a line that
    is nearest in the whole network passes the pre-filter. *)
Theorem prefilter_nearest {turf : Turf} (area point : feature)
    (lineFC : option (FeatureCollection feature)) (radiusKm : Q) :
  distance_le
    (nearestLineDistanceKm_local point lineFC)
    (nearestLineDistanceKm_local point
       (Some (linesNearPolygon area lineFC radiusKm))) /\
  (forall f : feature,
      In f (featuresOf (Some (linesNearPolygon area lineFC radiusKm))) ->
      (forall g : feature,
          In g (featuresOf lineFC) ->
          turf_pointToLineDistance point f
          <= turf_pointToLineDistance point g) ->
      distance_eq
        (nearestLineDistanceKm_local point
           (Some (linesNearPolygon area lineFC radiusKm)))
        (nearestLineDistanceKm_local point lineFC)).
Proof.
  assert (sub : forall f : feature,
    In f (featuresOf (Some (linesNearPolygon area lineFC radiusKm))) ->
    In f (featuresOf lineFC)).
  { intros f. rewrite linesNearPolygon_filter. cbn [featuresOf].
    intro h. apply filter_In in h. exact (proj1 h). }
  rewrite !nearest_unfold.
  destruct (nearest_fold point (featuresOf lineFC) Infinity)
    as (src0 & low0 & inf0).
  destruct (nearest_fold point
              (featuresOf (Some (linesNearPolygon area lineFC radiusKm)))
              Infinity) as (src1 & low1 & inf1).
  set (r0 := fold_left _ (featuresOf lineFC) Infinity) in *.
  set (r1 := fold_left _
               (featuresOf (Some (linesNearPolygon area lineFC radiusKm)))
               Infinity) in *.
  split.
  - destruct r1 as [m1 | ] eqn:e1; [ | destruct r0; exact I ].
    destruct src1 as [e | (f & hf & e)]; [ discriminate e | ].
    injection e as ->.
    destruct r0 as [m0 | ] eqn:e0.
    + cbn. apply (proj1 (low0 m0 eq_refl) f (sub f hf)).
    + destruct (inf0 eq_refl) as [_ hnil].
      pose proof (sub f hf) as hin. rewrite hnil in hin. destruct hin.
  - intros f hf hmin.
    destruct r1 as [m1 | ] eqn:e1.
    + destruct src1 as [e | (f1 & hf1 & e)]; [ discriminate e | ].
      injection e as ->.
      destruct r0 as [m0 | ] eqn:e0.
      * destruct src0 as [e | (f0 & hf0 & e)]; [ discriminate e | ].
        injection e as ->. cbn.
        apply Qle_antisym.
        -- apply Qle_trans with (turf_pointToLineDistance point f).
           ++ apply (proj1 (low1 _ eq_refl) f hf).
           ++ apply (hmin f0 hf0).
        -- apply (proj1 (low0 _ eq_refl) f1 (sub f1 hf1)).
      * destruct (inf0 eq_refl) as [_ hnil].
        pose proof (sub f hf) as hin. rewrite hnil in hin. destruct hin.
    + destruct (inf1 eq_refl) as [_ hnil]. rewrite hnil in hf. destruct hf.
Qed.

Lemma prefilter_nearest_witness :
  distance_eq
    (nearestLineDistanceKm_local (turf_centroid FlatTurf.area)
       (Some (linesNearPolygon FlatTurf.area
                (Some (FC (Some [FlatTurf.farPipe; FlatTurf.pipe]))) 2)))
    (nearestLineDistanceKm_local (turf_centroid FlatTurf.area)
       (Some (FC (Some [FlatTurf.farPipe; FlatTurf.pipe])))).
Proof.
  apply (proj2 (@prefilter_nearest FlatTurf.flat FlatTurf.area
                  (turf_centroid FlatTurf.area)
                  (Some (FC (Some [FlatTurf.farPipe; FlatTurf.pipe]))) 2)
           FlatTurf.pipe).
  - vm_compute. now left.
  - intros g [<- | [<- | []]]; vm_compute; discriminate.
Defined.

End GisExtra.

(** * More properties of app.js *)

Module AppExtra.
Import JS GeoJSON App AppMore AppFacts.

(** ** Paged retrieval, whatever the service answers *)

Section PagingMore.
Context {F Bounds error : Type}.
Variable getBounds : Bounds.
Variable run : @query Bounds -> @reply F error.
Variables (url_ : string) (returnGeometry_ : bool) (where' : option string).

Local Abbreviation queryAt := (pageQuery getBounds url_ returnGeometry_ where').
Local Abbreviation loop := (pages getBounds run).
Local Open Scope Z_scope.

Lemma batchOf_none (q : @query Bounds) :
  batchOf (run q) = None -> exists err : error, run q = Failure err.
Proof.
  destruct (run q) as [err | [fc | ]]; simpl; try discriminate. eauto.
Qed.

Lemma pages_resolved (rounds : nat) :
  forall (off : Z) (all : list F) (log : list (@query Bounds))
         (fc : FeatureCollection F),
    loop rounds url_ returnGeometry_ where' off all = (log, Resolved fc) ->
    exists (batches : list (list F)) (last : list F),
      log = map (fun k => queryAt (offsetOf off k))
              (seq 0 (S (List.length batches))) /\
      (forall k : nat,
          (k <= List.length batches)%nat ->
          batchOf (run (queryAt (offsetOf off k)))
          = Some (nth k (batches ++ [last]) [])) /\
      Forall (fun b => pageSize <= Z.of_nat (List.length b)) batches /\
      Z.of_nat (List.length last) < pageSize /\
      fc = FC (Some (all ++ List.concat batches ++ last)).
Proof.
  induction rounds as [ | rounds ih]; intros off all log fc h.
  - discriminate h.
  - destruct (batchOf (run (queryAt off))) as [b | ] eqn:hb.
    + rewrite (pages_delivered getBounds run url_ returnGeometry_ where'
                 rounds off all b hb) in h.
      destruct (Z.of_nat (List.length b) <? pageSize) eqn:hshort.
      * injection h as <- <-. exists [], b.
        split; [ cbn [List.length seq map]; now rewrite offsetOf_0 | ].
        split.
        { intros k hk. cbn [List.length] in hk.
          assert (k = 0%nat) as -> by lia. now rewrite offsetOf_0. }
        split; [ constructor | ].
        split; [ now apply Z.ltb_lt | reflexivity ].
      * destruct (loop rounds url_ returnGeometry_ where' (off + pageSize)
                    (all ++ b)) as [log' p] eqn:hrec.
        injection h as <- ->.
        destruct (ih _ _ _ _ hrec) as (batches & last & hlog & hserved
                                        & hfull & hlast & hfc).
        exists (b :: batches), last.
        split.
        { cbn [List.length]. rewrite (log_shift getBounds url_
                                        returnGeometry_ where' off).
          now rewrite hlog. }
        split.
        { intros [ | k] hk.
          - now rewrite offsetOf_0.
          - rewrite offsetOf_S. apply hserved. cbn [List.length] in hk. lia. }
        split; [ constructor; [ apply Z.ltb_ge in hshort; lia | exact hfull ]
               | ].
        split; [ exact hlast | ].
        rewrite hfc. cbn [List.concat]. now rewrite <- !app_assoc.
    + destruct (batchOf_none _ hb) as (err & herr).
      rewrite (pages_failed getBounds run url_ returnGeometry_ where'
                 rounds off all err herr) in h.
      discriminate h.
Qed.

(** The queries run are the first ones of the sequence of offsets, however
    the loop ends. *)
Lemma pages_log (rounds : nat) :
  forall (off : Z) (all : list F),
    fst (loop rounds url_ returnGeometry_ where' off all)
    = map (fun k => queryAt (offsetOf off k))
        (seq 0 (List.length
                  (fst (loop rounds url_ returnGeometry_ where' off all))))
    /\
    (List.length (fst (loop rounds url_ returnGeometry_ where' off all))
     <= rounds)%nat.
Proof.
  induction rounds as [ | rounds ih]; intros off all.
  - split; [ reflexivity | apply Nat.le_refl ].
  - destruct (batchOf (run (queryAt off))) as [b | ] eqn:hb.
    + rewrite (pages_delivered getBounds run url_ returnGeometry_ where'
                 rounds off all b hb).
      destruct (Z.of_nat (List.length b) <? pageSize).
      * cbn [fst List.length seq map]. rewrite offsetOf_0.
        split; [ reflexivity | lia ].
      * destruct (ih (off + pageSize) (all ++ b)) as [hlog hlen].
        destruct (loop rounds url_ returnGeometry_ where' (off + pageSize)
                    (all ++ b)) as [log' p].
        cbn [fst] in *. cbn [List.length].
        rewrite (log_shift getBounds url_ returnGeometry_ where' off).
        split; [ now rewrite <- hlog | lia ].
    + destruct (batchOf_none _ hb) as (err & herr).
      rewrite (pages_failed getBounds run url_ returnGeometry_ where'
                 rounds off all err herr).
      cbn [fst List.length seq map]. rewrite offsetOf_0.
      split; [ reflexivity | lia ].
Qed.

Lemma pages_endless (rounds : nat) :
  (forall q : @query Bounds,
      exists b : list F,
        batchOf (run q) = Some b /\ pageSize <= Z.of_nat (List.length b)) ->
  forall (off : Z) (all : list F),
    snd (loop rounds url_ returnGeometry_ where' off all) = Pending /\
    List.length (fst (loop rounds url_ returnGeometry_ where' off all))
    = rounds.
Proof.
  intro full. induction rounds as [ | rounds ih]; intros off all.
  - split; reflexivity.
  - destruct (full (queryAt off)) as (b & hb & hlen).
    rewrite (pages_delivered getBounds run url_ returnGeometry_ where'
               rounds off all b hb).
    assert (hfull : (Z.of_nat (List.length b) <? pageSize) = false)
      by (apply Z.ltb_ge; lia).
    rewrite hfull.
    destruct (ih (off + pageSize) (all ++ b)) as [hp hl].
    destruct (loop rounds url_ returnGeometry_ where' (off + pageSize)
                (all ++ b)) as [log' p].
    cbn [fst snd List.length] in *. split; [ exact hp | now rewrite hl ].
Qed.

End PagingMore.

(** X12.  Whatever the service answers, a collection [queryAllFeatures]
    resolves to is the concatenation, in order, of the batches delivered for
    the offsets 0, [pageSize], 2 [pageSize], ...: every batch but the last
    had at least [pageSize] features, the last had fewer, and no query was
    run beyond it. *)
Theorem queryAllFeatures_resolved_is_concatenation {F Bounds error : Type}
    (getBounds : Bounds) (run : @query Bounds -> @reply F error)
    (url_ : string) (returnGeometry_ : bool) (where' : option string)
    (rounds : nat) (log : list (@query Bounds)) (fc : FeatureCollection F) :
  queryAllFeatures getBounds run rounds url_ returnGeometry_ where'
  = (log, Resolved fc) ->
  exists (batches : list (list F)) (last : list F),
    log = map (fun k => pageQuery getBounds url_ returnGeometry_ where'
                          (Z.of_nat k * pageSize))
            (seq 0 (S (List.length batches))) /\
    (forall k : nat,
        (k <= List.length batches)%nat ->
        batchOf (run (pageQuery getBounds url_ returnGeometry_ where'
                        (Z.of_nat k * pageSize)))
        = Some (nth k (batches ++ [last]) [])) /\
    Forall (fun b => (pageSize <= Z.of_nat (List.length b))%Z) batches /\
    (Z.of_nat (List.length last) < pageSize)%Z /\
    fc = FC (Some (List.concat batches ++ last)).
Proof.
  intro h. unfold queryAllFeatures in h.
  destruct (pages_resolved getBounds run url_ returnGeometry_ where' rounds
              0%Z [] log fc h)
    as (batches & last & hlog & hserved & hfull & hlast & hfc).
  exists batches, last. unfold offsetOf in *.
  split; [ rewrite hlog; apply map_ext; intro k; now rewrite Z.add_0_l | ].
  split.
  { intros k hk. rewrite <- (hserved k hk). now rewrite Z.add_0_l. }
  split; [ exact hfull | ]. split; [ exact hlast | exact hfc ].
Qed.

Lemma queryAllFeatures_resolved_is_concatenation_witness :
  exists (batches : list (list feature)) (last : list feature),
    fst (queryAllFeatures tt Samples.service 3 "waterMains" true None)
    = map (fun k => pageQuery tt "waterMains" true None
                      (Z.of_nat k * pageSize))
        (seq 0 (S (List.length batches))) /\
    (forall k : nat,
        (k <= List.length batches)%nat ->
        batchOf (Samples.service
                   (pageQuery tt "waterMains" true None
                      (Z.of_nat k * pageSize)))
        = Some (nth k (batches ++ [last]) [])) /\
    Forall (fun b => (pageSize <= Z.of_nat (List.length b))%Z) batches /\
    (Z.of_nat (List.length last) < pageSize)%Z /\
    FC (Some (repeat Samples.main150 2000
              ++ [Samples.main150; Samples.hydrant]))
    = FC (Some (List.concat batches ++ last)).
Proof.
  apply (queryAllFeatures_resolved_is_concatenation tt Samples.service
           "waterMains" true None 3).
  reflexivity.
Defined.

(** X13.  Against a service that delivers a full page for every query the
    loop never ends: however many rounds it is given it is still pending,
    having run one query in each round. *)
Theorem queryAllFeatures_never_ends_on_full_pages {F Bounds error : Type}
    (getBounds : Bounds) (run : @query Bounds -> @reply F error)
    (url_ : string) (returnGeometry_ : bool) (where' : option string) :
  (forall q : @query Bounds,
      exists b : list F,
        batchOf (run q) = Some b /\
        (pageSize <= Z.of_nat (List.length b))%Z) ->
  forall rounds : nat,
    snd (queryAllFeatures getBounds run rounds url_ returnGeometry_ where')
    = Pending /\
    List.length
      (fst (queryAllFeatures getBounds run rounds url_ returnGeometry_
              where'))
    = rounds.
Proof.
  intros full rounds. unfold queryAllFeatures.
  apply (pages_endless getBounds run url_ returnGeometry_ where' rounds full).
Qed.

Lemma queryAllFeatures_never_ends_on_full_pages_witness :
  snd (queryAllFeatures tt endless 4 "waterMains" true None) = Pending /\
  List.length (fst (queryAllFeatures tt endless 4 "waterMains" true None))
  = 4%nat.
Proof.
  apply (queryAllFeatures_never_ends_on_full_pages tt endless "waterMains"
           true None).
  intro q. exists (repeat Samples.main150 2000).
  split; [ reflexivity | vm_compute; discriminate ].
Defined.

(** White space outside ASCII is trimmed like a space: a [where] made of
    it is not sent, and one with anything else in it is. *)
Example pageQuery_trims_unicode_space :
  where_ (pageQuery tt "waterMains" true (Some blankWhere) 0) = None /\
  where_ (pageQuery tt "waterMains" true (Some (blankWhere ++ "1=1")%string)
            0)
  = Some (blankWhere ++ "1=1")%string.
Proof. split; reflexivity. Qed.

(** X14.  However the loop ends, the queries it has run are the first ones
    of the sequence at offsets 0, [pageSize], 2 [pageSize], ..., at most one
    per round, each with limit [pageSize] and the caller's url and
    geometry flag; none of them carries a where clause when the caller's is
    null, empty or only white space. *)
Theorem queryAllFeatures_queries {F Bounds error : Type}
    (getBounds : Bounds) (run : @query Bounds -> @reply F error)
    (url_ : string) (returnGeometry_ : bool) (where' : option string)
    (rounds : nat) :
  fst (queryAllFeatures getBounds run rounds url_ returnGeometry_ where')
  = map (fun k => pageQuery getBounds url_ returnGeometry_ where'
                    (Z.of_nat k * pageSize))
      (seq 0 (List.length
                (fst (queryAllFeatures getBounds run rounds url_
                        returnGeometry_ where')))) /\
  (List.length
     (fst (queryAllFeatures getBounds run rounds url_ returnGeometry_
             where'))
   <= rounds)%nat /\
  Forall
    (fun q =>
       limit q = pageSize /\ url q = url_ /\
       returnGeometry q = returnGeometry_ /\
       (match where' with
        | Some w => nonBlank w = false
        | None => True
        end -> where_ q = None))
    (fst (queryAllFeatures getBounds run rounds url_ returnGeometry_
            where')).
Proof.
  unfold queryAllFeatures.
  destruct (pages_log getBounds run url_ returnGeometry_ where' rounds 0%Z [])
    as [hlog hlen].
  assert (e : forall k : nat,
    pageQuery getBounds url_ returnGeometry_ where' (offsetOf 0 k)
    = pageQuery getBounds url_ returnGeometry_ where'
        (Z.of_nat k * pageSize))
    by (intro k; unfold offsetOf; now rewrite Z.add_0_l).
  split; [ | split ].
  - rewrite hlog at 1. apply map_ext. exact e.
  - exact hlen.
  - rewrite hlog. apply Forall_forall. intros q hq.
    apply in_map_iff in hq. destruct hq as (k & <- & _).
    repeat split. cbn [where_ pageQuery].
    destruct where' as [w | ]; [ | reflexivity ].
    intros ->. reflexivity.
Qed.

(** ** What the length in view adds up *)

(** X15.  The total [lengthInViewKm] returns is the sum, over the entries
    of the collection, of what each counts for: the clipped length of a
    line-string, the clipped lengths of the parts of a multi-line-string up
    to the first part that throws, and nothing for any other entry.  So the
    total of two collections put together is the sum of their totals. *)
Theorem lengthInViewKm_is_sum_of_gains
    (turf_bboxClip : feature -> BBox -> option feature)
    (turf_length : feature -> option Q)
    (StringToNumber : string -> number) (bbox : BBox) (m : option Map) :
  (forall feats : list (option feature),
      exists total : Q,
        fst (callLengthInViewKm turf_bboxClip turf_length StringToNumber
               (Some (FC (Some feats))) bbox m)
        = Some total /\
        (total == sumOf (gain turf_bboxClip turf_length bbox) feats)%Q) /\
  (forall (l1 l2 : list (option feature)) (m1 m2 : option Map)
          (t1 t2 t : Q),
      fst (callLengthInViewKm turf_bboxClip turf_length StringToNumber
             (Some (FC (Some l1))) bbox m1)
      = Some t1 ->
      fst (callLengthInViewKm turf_bboxClip turf_length StringToNumber
             (Some (FC (Some l2))) bbox m2)
      = Some t2 ->
      fst (callLengthInViewKm turf_bboxClip turf_length StringToNumber
             (Some (FC (Some (l1 ++ l2)))) bbox m)
      = Some t ->
      (t == t1 + t2)%Q).
Proof.
  assert (total : forall (feats : list (option feature)) (m0 : option Map),
    exists t : Q,
      fst (callLengthInViewKm turf_bboxClip turf_length StringToNumber
             (Some (FC (Some feats))) bbox m0)
      = Some t /\
      (t == sumOf (gain turf_bboxClip turf_length bbox) feats)%Q).
  { intros feats m0. rewrite lengthInViewKm_sweep. cbn [fst].
    eexists. split; [ reflexivity | ].
    destruct (sweep_effect turf_bboxClip turf_length StringToNumber bbox
                feats (Store 0 m0)) as [ht _].
    rewrite ht. cbn [totalKm]. ring. }
  split; [ intro feats; apply total | ].
  intros l1 l2 m1 m2 t1 t2 t h1 h2 h.
  destruct (total l1 m1) as (t1' & e1 & s1).
  destruct (total l2 m2) as (t2' & e2 & s2).
  destruct (total (l1 ++ l2) m) as (t' & e & s0).
  rewrite e1 in h1. rewrite e2 in h2. rewrite e in h.
  injection h1 as <-. injection h2 as <-. injection h as <-.
  rewrite s0, s1, s2. apply sumOf_app.
Qed.

Lemma lengthInViewKm_is_sum_of_gains_witness :
  (5 == 1 + 4)%Q.
Proof.
  apply (proj2 (lengthInViewKm_is_sum_of_gains Samples.bboxClip
                  Samples.length Samples.stringToNumber Samples.view None)
           [Some Samples.main150; None]
           [Some Samples.broken; Some Samples.multi100; Some Samples.main150]
           (Some []) None);
    vm_compute; reflexivity.
Defined.

(** X16.  The diameter map grows by exactly what the entries with a finite
    diameter count for: after the pass the sum of its values is the sum
    before plus the gains of those entries, so with an empty map at the
    start and every entry carrying a finite diameter the values add up to
    the total.  When no map is passed there is none afterwards. *)
Theorem lengthInViewKm_fills_the_diameter_map
    (turf_bboxClip : feature -> BBox -> option feature)
    (turf_length : feature -> option Q)
    (StringToNumber : string -> number) (bbox : BBox)
    (feats : list (option feature)) :
  (forall m : Map,
      exists m' : Map,
        snd (callLengthInViewKm turf_bboxClip turf_length StringToNumber
               (Some (FC (Some feats))) bbox (Some m))
        = Some m' /\
        (mapSum m'
         == mapSum m
            + sumOf (binnedGain turf_bboxClip turf_length StringToNumber bbox)
                feats)%Q) /\
  snd (callLengthInViewKm turf_bboxClip turf_length StringToNumber
         (Some (FC (Some feats))) bbox None)
  = None /\
  (Forall
     (fun f =>
        match f with
        | Some f' => isFinite (diameterOf StringToNumber f') = true
        | None => True
        end)
     feats ->
   exists (total : Q) (m' : Map),
     callLengthInViewKm turf_bboxClip turf_length StringToNumber
       (Some (FC (Some feats))) bbox (Some [])
     = (Some total, Some m') /\
     (mapSum m' == total)%Q).
Proof.
  assert (maps : forall m : Map,
    exists m' : Map,
      snd (callLengthInViewKm turf_bboxClip turf_length StringToNumber
             (Some (FC (Some feats))) bbox (Some m))
      = Some m' /\
      (mapSum m'
       == mapSum m
          + sumOf (binnedGain turf_bboxClip turf_length StringToNumber bbox)
              feats)%Q).
  { intro m. rewrite lengthInViewKm_sweep. cbn [snd].
    destruct (sweep_effect turf_bboxClip turf_length StringToNumber bbox
                feats (Store 0 (Some m))) as [_ hm].
    exact hm. }
  split; [ exact maps | split ].
  - rewrite lengthInViewKm_sweep. cbn [snd].
    destruct (sweep_effect turf_bboxClip turf_length StringToNumber bbox
                feats (Store 0 None)) as [_ hm].
    exact hm.
  - intro finite.
    destruct (maps []) as (m' & em & hs).
    rewrite lengthInViewKm_sweep in em. cbn [snd] in em.
    exists (totalKm
              (fold_left
                 (App.after turf_bboxClip turf_length StringToNumber bbox)
                 feats (Store 0 (Some [])))), m'.
    split; [ rewrite lengthInViewKm_sweep; f_equal; exact em | ].
    destruct (sweep_effect turf_bboxClip turf_length StringToNumber bbox
                feats (Store 0 (Some []))) as [ht _].
    rewrite hs, ht. cbn [totalKm mapSum fold_right].
    assert (same :
      (sumOf (binnedGain turf_bboxClip turf_length StringToNumber bbox) feats
       == sumOf (gain turf_bboxClip turf_length bbox) feats)%Q).
    { clear - finite. induction finite as [ | f feats hf _ ih];
        cbn [sumOf fold_right]; [ reflexivity | ].
      fold (sumOf (binnedGain turf_bboxClip turf_length StringToNumber bbox)
              feats).
      fold (sumOf (gain turf_bboxClip turf_length bbox) feats).
      rewrite ih. destruct f as [f | ]; cbn [binnedGain]; [ | reflexivity ].
      now rewrite hf. }
    rewrite same. reflexivity.
Qed.

Lemma lengthInViewKm_fills_the_diameter_map_witness :
  exists (total : Q) (m' : Map),
    callLengthInViewKm Samples.bboxClip Samples.length Samples.stringToNumber
      (Some (FC (Some [Some Samples.main150; None; Some Samples.multi100])))
      Samples.view (Some [])
    = (Some total, Some m') /\
    (mapSum m' == total)%Q.
Proof.
  apply (proj2 (proj2
           (lengthInViewKm_fills_the_diameter_map Samples.bboxClip
              Samples.length Samples.stringToNumber Samples.view
              [Some Samples.main150; None; Some Samples.multi100]))).
  repeat constructor.
Defined.

(** ** The table of lengths by diameter *)

Section Rows.
Local Open Scope Q_scope.

Local Abbreviation longerFirst :=
  (fun a b : Q * Q => snd b <= snd a).

Lemma insertDesc_perm (x : Q * Q) (l : list (Q * Q)) :
  Permutation (x :: l) (insertDesc x l).
Proof.
  induction l as [ | y l ih]; cbn [insertDesc]; [ apply Permutation_refl | ].
  destruct (Qle_bool (snd y) (snd x)); [ apply Permutation_refl | ].
  apply perm_trans with (y :: x :: l); [ apply perm_swap | ].
  now apply perm_skip.
Qed.

Lemma sortDesc_perm (l : list (Q * Q)) : Permutation l (sortDesc l).
Proof.
  induction l as [ | x l ih]; [ apply perm_nil | ].
  cbn [sortDesc fold_right]. fold (sortDesc l).
  apply perm_trans with (x :: sortDesc l);
    [ now apply perm_skip | apply insertDesc_perm ].
Qed.

Lemma insertDesc_sorted (x : Q * Q) (l : list (Q * Q)) :
  StronglySorted longerFirst l -> StronglySorted longerFirst (insertDesc x l).
Proof.
  induction 1 as [ | y l hs ih hy]; cbn [insertDesc].
  - constructor; constructor.
  - destruct (Qle_bool (snd y) (snd x)) eqn:e.
    + apply Qle_bool_iff in e. constructor.
      * now constructor.
      * constructor; [ exact e | ].
        apply Forall_forall. intros z hz.
        rewrite Forall_forall in hy.
        apply Qle_trans with (snd y); [ now apply hy | exact e ].
    + assert (hlt : snd x < snd y).
      { apply Qnot_le_lt. intro h. apply Qle_bool_iff in h.
        rewrite h in e. discriminate e. }
      constructor; [ exact ih | ].
      apply (Permutation_Forall (insertDesc_perm x l)).
      constructor; [ now apply Qlt_le_weak | exact hy ].
Qed.

Lemma sortDesc_sorted (l : list (Q * Q)) :
  StronglySorted longerFirst (sortDesc l).
Proof.
  induction l as [ | x l ih]; [ constructor | ].
  cbn [sortDesc fold_right]. now apply insertDesc_sorted.
Qed.

Lemma sorted_app (a b : list (Q * Q)) :
  StronglySorted longerFirst (a ++ b) ->
  StronglySorted longerFirst a /\
  forall x y : Q * Q, In x a -> In y b -> snd y <= snd x.
Proof.
  induction a as [ | z a ih]; cbn [List.app]; intro h.
  - split; [ constructor | intros x y [] ].
  - inversion h as [ | z' l' hs hz]; subst.
    destruct (ih hs) as [hsa hcross]. split.
    + constructor; [ exact hsa | ].
      apply Forall_forall. intros w hw. rewrite Forall_forall in hz.
      apply hz, in_or_app. now left.
    + intros x y [<- | hx] hy.
      * rewrite Forall_forall in hz. apply hz, in_or_app. now right.
      * now apply hcross.
Qed.

End Rows.

(** X17.  The rows shown for the lengths by diameter are the twelve longest
    entries of the map, or all of them when there are fewer: they are in
    order of length, longest first, they are entries of the map, and no
    entry left out is longer than one shown. *)
Theorem diameterRows_are_the_longest (byDia : Map) :
  List.length (diameterRows byDia) = Nat.min 12 (List.length byDia) /\
  StronglySorted (fun a b : Q * Q => (snd b <= snd a)%Q) (diameterRows byDia)
  /\
  exists rest : list (Q * Q),
    Permutation byDia (diameterRows byDia ++ rest) /\
    forall shown left : Q * Q,
      In shown (diameterRows byDia) -> In left rest ->
      (snd left <= snd shown)%Q.
Proof.
  unfold diameterRows.
  pose proof (sortDesc_sorted byDia) as hs.
  rewrite <- (firstn_skipn 12 (sortDesc byDia)) in hs.
  destruct (sorted_app _ _ hs) as [hrows hcross].
  split; [ | split ].
  - rewrite length_firstn.
    now rewrite <- (Permutation_length (sortDesc_perm byDia)).
  - exact hrows.
  - exists (skipn 12 (sortDesc byDia)). split; [ | exact hcross ].
    rewrite firstn_skipn. apply sortDesc_perm.
Qed.

(** ** Quoting in the where clause *)

Section Quoting.
Local Open Scope string_scope.

Lemma append_assoc_ (a b c : string) : (a ++ b) ++ c = a ++ (b ++ c).
Proof. induction a as [ | x a ih]; cbn; [ reflexivity | now rewrite ih ]. Qed.

Lemma append_empty (a : string) : a ++ EmptyString = a.
Proof. induction a as [ | x a ih]; cbn; [ reflexivity | now rewrite ih ]. Qed.

(** Reading back a doubled text that is followed by the end of a
    literal. *)
Lemma readLiteral_doubled (v : string) :
  forall tail v2 rest : string,
    readLiteral tail = Some (v2, rest) ->
    readLiteral (doubleQuotes v ++ tail) = Some (v ++ v2, rest).
Proof.
  induction v as [ | c v ih]; intros tail v2 rest h; [ exact h | ].
  cbn [doubleQuotes].
  destruct (Ascii.eqb c "'"%char) eqn:e.
  - apply Ascii.eqb_eq in e. subst c.
    cbn [append readLiteral]. cbn [Ascii.eqb Bool.eqb].
    now rewrite (ih tail v2 rest h).
  - cbn [append readLiteral]. rewrite e.
    now rewrite (ih tail v2 rest h).
Qed.

Lemma readLiteral_like (v : string) :
  readLiteral (("%" ++ doubleQuotes v ++ "%") ++ "'")
  = Some ("%" ++ v ++ "%", EmptyString).
Proof.
  change (("%" ++ doubleQuotes v ++ "%") ++ "'")
    with (String "%"%char ((doubleQuotes v ++ "%") ++ "'")).
  rewrite append_assoc_.
  change (readLiteral (String "%"%char (doubleQuotes v ++ "%" ++ "'")))
    with (match readLiteral (doubleQuotes v ++ "%'") with
          | Some (v', rest) => Some (String "%"%char v', rest)
          | None => None
          end).
  now rewrite (readLiteral_doubled v "%'" "%" EmptyString eq_refl).
Qed.

Lemma readLiteral_plain (v : string) :
  readLiteral (doubleQuotes v ++ "'") = Some (v, EmptyString).
Proof.
  rewrite (readLiteral_doubled v "'" EmptyString EmptyString eq_refl).
  now rewrite append_empty.
Qed.

(** The clause for a text field, the value not being empty. *)
Lemma buildWhere_text (NumberToString : number -> string)
    (Date_parse : string -> number) (field op value ftype : string) :
  field <> EmptyString -> op <> EmptyString -> value <> EmptyString ->
  test_i "esriFieldTypeString" ftype = true ->
  buildWhere NumberToString Date_parse (Some field) (Some op) (Some value)
    ftype
  = field ++ " " ++ op ++ " '"
    ++ (if String.eqb (toUpperCase op) "LIKE"
        then "%" ++ doubleQuotes value ++ "%"
        else doubleQuotes value)
    ++ "'".
Proof.
  intros hf ho hv hs. unfold buildWhere.
  rewrite (falsy_nonempty field hf), (falsy_nonempty op ho). cbn [orb].
  destruct value as [ | c value]; [ congruence | ].
  now rewrite hs.
Qed.

Lemma hasSpace_clause (a b : string) :
  hasSpace (a ++ String " "%char b) = true.
Proof.
  induction a as [ | c a ih]; [ reflexivity | ].
  cbn [append hasSpace]. rewrite ih. apply orb_true_r.
Qed.

End Quoting.

(** [toUpperCase] takes the dotless i to I, so [like] written with it is
    LIKE; the regular expressions of [buildWhere] fold ASCII letters
    only. *)
Example buildWhere_dotless_like :
  toUpperCase dotlessLike = "LIKE"%string /\
  test_i "like" dotlessLike = false /\
  buildWhere Samples.numberToString Samples.dateParse (Some "name"%string)
    (Some dotlessLike) (Some "x"%string) "esriFieldTypeString"
  = ("name " ++ dotlessLike ++ " '%x%'")%string.
Proof. repeat split. Qed.

(** X18.  For a text field the value reaches the clause as one SQL string
    literal that reads back as the value itself (between two [%] for LIKE,
    in any case of letters): every quote in the value is doubled, so no
    quote in it can end the literal. *)
Theorem buildWhere_quotes_text (NumberToString : number -> string)
    (Date_parse : string -> number) (field op value ftype : string) :
  field <> EmptyString -> op <> EmptyString -> value <> EmptyString ->
  test_i "esriFieldTypeString" ftype = true ->
  exists lit : string,
    buildWhere NumberToString Date_parse (Some field) (Some op) (Some value)
      ftype
    = (field ++ " " ++ op ++ " '" ++ lit ++ "'")%string /\
    readLiteral (lit ++ "'")
    = Some (if String.eqb (toUpperCase op) "LIKE"
            then ("%" ++ value ++ "%")%string
            else value,
            EmptyString).
Proof.
  intros hf ho hv hs.
  rewrite (buildWhere_text NumberToString Date_parse field op value ftype
             hf ho hv hs).
  destruct (String.eqb (toUpperCase op) "LIKE").
  - eexists. split; [ reflexivity | apply readLiteral_like ].
  - eexists. split; [ reflexivity | apply readLiteral_plain ].
Qed.

Lemma buildWhere_quotes_text_witness :
  exists lit : string,
    buildWhere Samples.numberToString Samples.dateParse
      (Some "owner"%string) (Some "like"%string)
      (Some "O'Neil ' OR '1'='1"%string) "esriFieldTypeString"
    = ("owner" ++ " " ++ "like" ++ " '" ++ lit ++ "'")%string /\
    readLiteral (lit ++ "'")
    = Some (if String.eqb (toUpperCase "like") "LIKE"
            then ("%" ++ "O'Neil ' OR '1'='1" ++ "%")%string
            else "O'Neil ' OR '1'='1"%string,
            EmptyString).
Proof.
  apply buildWhere_quotes_text; (discriminate || reflexivity).
Defined.

(** X19.  [buildWhere] gives the match-all clause [1=1] exactly when the
    field or the operator is missing or empty, whatever the value and the
    type. *)
Theorem buildWhere_matches_all_iff (NumberToString : number -> string)
    (Date_parse : string -> number) (field op value : option string)
    (ftype : string) :
  buildWhere NumberToString Date_parse field op value ftype = "1=1"%string
  <-> falsy field || falsy op = true.
Proof.
  split.
  - destruct field as [[ | c f] | ]; try reflexivity.
    destruct op as [[ | c' o] | ]; try reflexivity.
    intro h. exfalso.
    assert (hsp : hasSpace
                    (buildWhere NumberToString Date_parse
                       (Some (String c f)) (Some (String c' o)) value ftype)
                  = true).
    { unfold buildWhere. cbn [falsy orb].
      destruct value as [[ | c'' v] | ]; try apply hasSpace_clause.
      destruct (test_i "esriFieldTypeString" ftype);
        [ apply hasSpace_clause | ].
      destruct (test_i "esriFieldTypeDate" ftype);
        [ | apply hasSpace_clause ].
      destruct (isFinite (Date_parse (String c'' v)));
        apply hasSpace_clause. }
    rewrite h in hsp. discriminate hsp.
  - unfold buildWhere.
    destruct field as [[ | c f] | ]; destruct op as [[ | c' o] | ];
      cbn [falsy orb]; intro h; (reflexivity || discriminate h).
Qed.

(** ** More of the debounce *)

Section DebounceMore.
Local Open Scope Z_scope.

(** One timer is waiting and [analyticsTimer] holds it. *)
Local Abbreviation holding :=
  (fun s : page =>
     exists id : Z,
       timers s = [(id, now s + 350)] /\ analyticsTimer s = Some id /\
       id <> 0 /\ 0 < nextTimer s).

Lemma scheduleAnalytics_holds (s : page) :
  (timers s = [] \/
   exists id due : Z,
     timers s = [(id, due)] /\ analyticsTimer s = Some id /\ id <> 0) ->
  0 < nextTimer s ->
  holding (scheduleAnalytics s).
Proof.
  destruct s as [n next tm held rs].
  cbn [timers nextTimer analyticsTimer]. intros shape hpos.
  exists next. unfold scheduleAnalytics.
  destruct shape as [-> | (id & due & -> & -> & hid)].
  - cbn [analyticsTimer].
    destruct held as [id | ]; [ destruct (id =? 0) | ];
      cbn; repeat split; lia.
  - cbn [analyticsTimer].
    assert (hne : (id =? 0) = false) by (now apply Z.eqb_neq).
    rewrite hne. unfold clearTimeout, setTimeout.
    cbn [timers nextTimer now runs analyticsTimer filter fst].
    rewrite Z.eqb_refl. cbn. repeat split; lia.
Qed.

Lemma trigger_holds (s : page) (t : Z) :
  (idle s \/ holding s) -> holding (trigger s t).
Proof.
  intro h. unfold trigger. apply scheduleAnalytics_holds.
  - unfold elapse. cbn [timers analyticsTimer].
    destruct h as [[-> _] | (id & -> & hheld & hid & _)].
    + now left.
    + cbn [filter snd].
      destruct (now s + 350 <=? t); cbn [negb]; [ now left | ].
      right. exists id, (now s + 350). now repeat split.
  - unfold elapse. cbn [nextTimer].
    destruct h as [[_ hpos] | (id & _ & _ & _ & hpos)]; exact hpos.
Qed.

Lemma play_holds (events : list Z) :
  forall s : page,
    (idle s \/ holding s) -> events <> [] -> holding (play events s).
Proof.
  induction events as [ | t events ih]; intros s h hne; [ congruence | ].
  change (play (t :: events) s) with (play events (trigger s t)).
  pose proof (trigger_holds s t h) as h'.
  destruct events as [ | t' events]; [ exact h' | ].
  apply ih; [ now right | discriminate ].
Qed.

(** A trigger that comes when the scheduled run is already due: the run
    starts first, then the next one is scheduled. *)
Lemma trigger_after_run (s : page) (t t' : Z) (r : list Z) :
  armed t r s -> t + 350 <= t' -> armed t' (r ++ [t + 350]) (trigger s t').
Proof.
  destruct s as [n next tm held rs].
  intros (id & htm & hheld & hid & hpos & hr & hnow) hgap.
  cbn [timers nextTimer now runs analyticsTimer] in *. subst tm held rs n.
  exists next. unfold trigger, elapse, scheduleAnalytics.
  cbn [timers nextTimer now runs analyticsTimer filter snd].
  assert (hdue : (t + 350 <=? t') = true) by (apply Z.leb_le; lia).
  rewrite hdue. cbn [negb fold_right map insertByDue snd].
  assert (hne : (id =? 0) = false) by (apply Z.eqb_neq; exact hid).
  rewrite hne. unfold clearTimeout, setTimeout.
  cbn [timers nextTimer now runs analyticsTimer filter fst List.app].
  assert (hmax : Z.max t t' = t') by lia. rewrite hmax.
  repeat split; lia.
Qed.

Lemma play_ascending (events : list Z) :
  forall (s : page) (t : Z) (r : list Z),
    armed t r s -> ascending t events ->
    exists r' : list Z,
      armed (last events t) r' (play events s) /\
      r' ++ [last events t + 350] = r ++ runsAfter t events.
Proof.
  induction events as [ | t' events ih]; intros s t r harmed hasc.
  - exists r. split; [ exact harmed | reflexivity ].
  - destruct hasc as [hle hasc].
    change (play (t' :: events) s) with (play events (trigger s t')).
    rewrite last_cons. cbn [runsAfter].
    destruct (t + 350 <=? t') eqn:hdue.
    + apply Z.leb_le in hdue.
      destruct (ih _ t' _ (trigger_after_run s t t' r harmed hdue) hasc)
        as (r' & harmed' & hr').
      exists r'. split; [ exact harmed' | ].
      rewrite hr'. now rewrite <- app_assoc.
    + apply Z.leb_gt in hdue.
      assert (hgap : t <= t' < t + 350) by lia.
      apply (ih _ t' _ (trigger_rearms s t t' r harmed hgap) hasc).
Qed.

End DebounceMore.

(** X20.  However the triggers are timed, after any number of them (at
    least one) exactly one run of the analytics is scheduled: one timer is
    waiting, [analyticsTimer] holds it, and it is due 350 ms from the time
    of the page. *)
Theorem one_run_scheduled_at_a_time (s : page) (events : list Z) :
  idle s -> events <> [] ->
  exists id : Z,
    timers (play events s) = [(id, now (play events s) + 350)%Z] /\
    analyticsTimer (play events s) = Some id.
Proof.
  intros hidle hne.
  destruct (play_holds events s (or_introl hidle) hne)
    as (id & htm & hheld & _ & _).
  exists id. now split.
Qed.

Lemma one_run_scheduled_at_a_time_witness :
  exists id : Z,
    timers (play [0; 900; 910; 400]%Z initialPage)
    = [(id, now (play [0; 900; 910; 400]%Z initialPage) + 350)%Z] /\
    analyticsTimer (play [0; 900; 910; 400]%Z initialPage) = Some id.
Proof.
  apply one_run_scheduled_at_a_time.
  - split; [ reflexivity | simpl; lia ].
  - discriminate.
Defined.

(** X21.  For triggers in the order of the clock, starting with no run
    scheduled, the analytics runs once for every trigger that no other
    trigger follows within 350 ms, 350 ms after it, and at no other time. *)
Theorem runs_follow_quiet_triggers (s : page) (t : Z) (events : list Z) :
  idle s -> (now s <= t)%Z -> ascending t events ->
  forall T : Z,
    (last events t + 350 <= T)%Z ->
    runs (elapse T (play (t :: events) s)) = runs s ++ runsAfter t events /\
    timers (elapse T (play (t :: events) s)) = [].
Proof.
  intros hidle hnow hasc T hT.
  change (play (t :: events) s) with (play events (trigger s t)).
  destruct (play_ascending events _ t _ (trigger_from_idle s t hidle hnow)
              hasc) as (r' & harmed & hr').
  destruct (armed_fires _ _ _ _ harmed hT) as [hruns htimers].
  split; [ now rewrite hruns, hr' | exact htimers ].
Qed.

Lemma runs_follow_quiet_triggers_witness :
  runs (elapse 5000 (play (0 :: [100; 450; 460; 2000]) initialPage))%Z
  = runs initialPage ++ runsAfter 0 [100; 450; 460; 2000]%Z /\
  timers (elapse 5000 (play (0 :: [100; 450; 460; 2000]) initialPage))%Z
  = [].
Proof.
  apply (runs_follow_quiet_triggers initialPage 0 [100; 450; 460; 2000]%Z).
  - split; [ reflexivity | simpl; lia ].
  - simpl; lia.
  - simpl; lia.
  - simpl; lia.
Defined.

(** X22.  The refresh button does not cancel a scheduled run: a click
    within the quiet interval after a trigger runs the analytics at once,
    and the scheduled run still follows 350 ms after the trigger. *)
Theorem refresh_does_not_cancel (s : page) (t t' T : Z) :
  idle s -> (now s <= t)%Z -> (t <= t' < t + 350)%Z -> (t + 350 <= T)%Z ->
  runs (elapse T (refresh (trigger s t) t'))
  = runs s ++ [t'; (t + 350)%Z].
Proof.
  intros hidle hnow hgap hT.
  destruct (trigger_from_idle s t hidle hnow)
    as (id & htm & _ & _ & _ & hr & _).
  destruct (trigger s t) as [n next tm held rs].
  cbn [timers runs] in htm, hr. subst tm rs.
  assert (hlate : (t + 350 <=? t')%Z = false) by (apply Z.leb_gt; lia).
  assert (hdue : (t + 350 <=? T)%Z = true) by (apply Z.leb_le; lia).
  unfold refresh, elapse.
  cbn [runs timers now nextTimer analyticsTimer filter snd].
  rewrite hlate.
  cbn [negb runs timers now nextTimer analyticsTimer filter snd fold_right
       map].
  rewrite hdue. cbn [fold_right map insertByDue snd].
  rewrite app_nil_r. now rewrite <- app_assoc.
Qed.

Lemma refresh_does_not_cancel_witness :
  runs (elapse 1000 (refresh (trigger initialPage 100) 200))%Z
  = runs initialPage ++ [200; (100 + 350)]%Z.
Proof.
  apply refresh_does_not_cancel.
  - split; [ reflexivity | simpl; lia ].
  - simpl; lia.
  - lia.
  - lia.
Defined.

(** ** The field cache and the filter from the URL *)

Section FieldFacts.
Local Open Scope string_scope.





End FieldFacts.



(** X24.  The filter from the URL: with no [layer] parameter nothing
    happens and nothing is fetched; a [where] parameter is applied to a
    registered layer as it stands, whatever [field], [op] and [value] say;
    without [where], a filter is built only when [field], [op] and [value]
    are all present and not empty; and for a layer that is not registered a
    filter that would be applied makes the handler throw instead. *)
Theorem tryApplyFromURL_cases (getJSON : member -> option (list field))
    (NumberToString : number -> string) (Date_parse : string -> number)
    (p : string -> option string) (s : fieldStore) :
  (orNull (p "layer"%string) = None ->
   tryApplyFromURL getJSON NumberToString Date_parse p s = (Some [], s)) /\
  (forall layer w : string,
      orNull (p "layer"%string) = Some layer ->
      orNull (p "where"%string) = Some w ->
      fst (tryApplyFromURL getJSON NumberToString Date_parse p s)
      = if existsb (String.eqb layer) layerRegistry
        then Some [SetWhere layer w; Hint ("Applied (URL): " ++ w)]
        else None) /\
  (forall layer : string,
      orNull (p "layer"%string) = Some layer ->
      orNull (p "where"%string) = None ->
      orNull (p "field"%string) = None \/ orNull (p "op"%string) = None \/
      orNull (p "value"%string) = None ->
      fst (tryApplyFromURL getJSON NumberToString Date_parse p s) = Some [])
  /\
  (forall layer : string,
      orNull (p "layer"%string) = Some layer ->
      snd (tryApplyFromURL getJSON NumberToString Date_parse p s)
      = snd (loadFieldsFor getJSON layer s)).
Proof.
  unfold tryApplyFromURL.
  split; [ intros ->; reflexivity | ].
  split; [ | split ].
  - intros layer w -> ->.
    destruct (loadFieldsFor getJSON layer s) as [fields s'].
    destruct (existsb (String.eqb layer) layerRegistry); reflexivity.
  - intros layer -> -> h.
    destruct (loadFieldsFor getJSON layer s) as [fields s'].
    destruct h as [-> | [-> | ->]].
    + reflexivity.
    + destruct (orNull (p "field"%string)); reflexivity.
    + destruct (orNull (p "field"%string)); [ | reflexivity ].
      destruct (orNull (p "op"%string)); reflexivity.
  - intros layer ->.
    destruct (loadFieldsFor getJSON layer s) as [fields s'].
    destruct (orNull (p "where"%string)).
    + destruct (existsb (String.eqb layer) layerRegistry); reflexivity.
    + destruct (orNull (p "field"%string)); [ | reflexivity ].
      destruct (orNull (p "op"%string)); [ | reflexivity ].
      destruct (orNull (p "value"%string)); [ | reflexivity ].
      destruct (existsb (String.eqb layer) layerRegistry); reflexivity.
Qed.

Lemma tryApplyFromURL_cases_witness :
  fst (tryApplyFromURL sampleMeta Samples.numberToString Samples.dateParse
         sampleSearch (FieldStore [] []))
  = if existsb (String.eqb "waterMains") layerRegistry
    then Some [SetWhere "waterMains" "nominaldiameter>=300";
               Hint ("Applied (URL): " ++ "nominaldiameter>=300")]
    else None.
Proof.
  apply (proj1 (proj2 (tryApplyFromURL_cases sampleMeta
                         Samples.numberToString Samples.dateParse
                         sampleSearch (FieldStore [] []))));
    reflexivity.
Defined.

End AppExtra.
